(** * Name resolution of open-names/resolution

    A shallow embedding of the two source variants of the resolver
    ([src/index.ts] and its later revision) together with the pieces of the
    platform they call: SHA-256 of node's [crypto], the UTF-8 encoder of
    [Hash.update(_, 'utf8')], [Buffer] slicing and the [PublicKey] class of
    [@solana/web3.js].  The program-derived-address search of web3.js and
    [String.prototype.toLowerCase] stay abstract: they are the fields of the
    [Platform] record every definition of the resolver is parametrised by.

    The definitions come first, the theorems about them after. *)

From Stdlib Require Import List NArith ZArith Lia Bool String Ascii Arith.
From Stdlib Require Import Init.Byte.
Import ListNotations.

Set Implicit Arguments.

(** ** Thrown errors

    A JavaScript computation either returns a value or throws
    [new Error(msg)]; a rejected promise is the same thing one [await] later. *)

Inductive result (A : Type) : Type :=
| Ok (a : A)
| Throw (msg : string).

Arguments Ok {A} a.
Arguments Throw {A} msg.

Definition bind {A B : Type} (c : result A) (k : A -> result B) : result B :=
  match c with
  | Ok a => k a
  | Throw msg => Throw msg
  end.

Declare Scope js_scope.
Delimit Scope js_scope with js.
Notation "'await' x <- c ;; k" := (bind c (fun x => k))
  (at level 61, x name, c at next level, right associativity) : js_scope.
Open Scope js_scope.

(** ** Buffers *)

Definition Buffer : Type := list byte.

(** [Buffer.alloc(n)]: [n] zero bytes. *)
Definition Buffer_alloc (n : nat) : Buffer := repeat x00 n.

(** [buf.slice(start, end)] for non-negative indices; indices beyond the
    end are clamped, which [skipn] and [firstn] do by themselves. *)
Definition slice (buf : Buffer) (start stop : nat) : Buffer :=
  firstn (stop - start) (skipn start buf).

(** [buf.slice(start)]. *)
Definition slice_from (buf : Buffer) (start : nat) : Buffer := skipn start buf.

Definition byte_of_N (n : N) : byte :=
  match Byte.of_N (n mod 256) with
  | Some b => b
  | None => x00
  end.

(** ** SHA-256 (FIPS 180-4), what [createHash('sha256')] computes *)

Module SHA256.
Local Open Scope N_scope.

Definition mask32 : N := 0xFFFFFFFF.
Definition wrap (x : N) : N := N.land x mask32.
Definition add32 (x y : N) : N := wrap (x + y).
Definition rotr (n x : N) : N :=
  N.lor (N.shiftr x n) (wrap (N.shiftl x (32 - n))).
Definition not32 (x : N) : N := N.lxor x mask32.

Definition Ch (x y z : N) : N := N.lxor (N.land x y) (N.land (not32 x) z).
Definition Maj (x y z : N) : N :=
  N.lxor (N.lxor (N.land x y) (N.land x z)) (N.land y z).
Definition bsig0 (x : N) : N := N.lxor (N.lxor (rotr 2 x) (rotr 13 x)) (rotr 22 x).
Definition bsig1 (x : N) : N := N.lxor (N.lxor (rotr 6 x) (rotr 11 x)) (rotr 25 x).
Definition ssig0 (x : N) : N := N.lxor (N.lxor (rotr 7 x) (rotr 18 x)) (N.shiftr x 3).
Definition ssig1 (x : N) : N := N.lxor (N.lxor (rotr 17 x) (rotr 19 x)) (N.shiftr x 10).

(** The constants are the first 32 fractional bits of the square roots
    (initial state) and cube roots (round constants) of the first primes;
    they are computed here rather than typed in. *)

Fixpoint cbrt_bits (bits : nat) (n acc : N) : N :=
  match bits with
  | O => acc
  | S b =>
      let cand := acc + N.shiftl 1 (N.of_nat b) in
      cbrt_bits b n (if cand * cand * cand <=? n then cand else acc)
  end.

Definition cbrt (n : N) : N := cbrt_bits 48 n 0.

Definition is_prime (p : N) : bool :=
  (2 <=? p) &&
  forallb (fun d => negb (p mod d =? 0) || (p <=? d))
          (map N.of_nat (seq 2 18)).

Definition primes64 : list N :=
  Eval vm_compute in filter is_prime (map N.of_nat (seq 0 312)).

Definition K : list N :=
  Eval vm_compute in map (fun p => wrap (cbrt (p * 2 ^ 96))) primes64.

Definition H0 : list N :=
  Eval vm_compute in map (fun p => wrap (N.sqrt (p * 2 ^ 64))) (firstn 8 primes64).

Record state : Type := mkState
  { sa : N; sb : N; sc : N; sd : N; se : N; sf : N; sg : N; sh : N }.

Definition init : state :=
  match H0 with
  | [a; b; c; d; e; f; g; h] => mkState a b c d e f g h
  | _ => mkState 0 0 0 0 0 0 0 0
  end.

Definition round (s : state) (kw : N * N) : state :=
  let (k, w) := kw in
  let t1 := add32 (add32 (add32 (add32 (sh s) (bsig1 (se s))) (Ch (se s) (sf s) (sg s))) k) w in
  let t2 := add32 (bsig0 (sa s)) (Maj (sa s) (sb s) (sc s)) in
  mkState (add32 t1 t2) (sa s) (sb s) (sc s) (add32 (sd s) t1) (se s) (sf s) (sg s).

Fixpoint be_word (bs : list N) : N :=
  match bs with
  | [] => 0
  | b :: rest => N.shiftl b (8 * N.of_nat (List.length rest)) + be_word rest
  end.

Fixpoint words (n : nat) (bs : list N) : list N :=
  match n with
  | O => []
  | S m => be_word (firstn 4 bs) :: words m (skipn 4 bs)
  end.

(** The message schedule, newest word first while it is extended. *)
Fixpoint extend (n : nat) (rev_w : list N) : list N :=
  match n with
  | O => rev_w
  | S m =>
      let w := add32 (add32 (add32 (ssig1 (nth 1 rev_w 0)) (nth 6 rev_w 0))
                            (ssig0 (nth 14 rev_w 0))) (nth 15 rev_w 0) in
      extend m (w :: rev_w)
  end.

Definition schedule (block : list N) : list N :=
  rev (extend 48 (rev (words 16 block))).

Definition compress (s : state) (block : list N) : state :=
  let r := fold_left round (combine K (schedule block)) s in
  mkState (add32 (sa s) (sa r)) (add32 (sb s) (sb r)) (add32 (sc s) (sc r))
          (add32 (sd s) (sd r)) (add32 (se s) (se r)) (add32 (sf s) (sf r))
          (add32 (sg s) (sg r)) (add32 (sh s) (sh r)).

Fixpoint blocks (n : nat) (bs : list N) (s : state) : state :=
  match n with
  | O => s
  | S m => blocks m (skipn 64 bs) (compress s (firstn 64 bs))
  end.

Definition be_bytes (len : nat) (x : N) : list N :=
  map (fun i => N.land (N.shiftr x (8 * N.of_nat (len - 1 - i))) 0xFF) (seq 0 len).

Definition pad (msg : list N) : list N :=
  let len := List.length msg in
  let zeros := ((64 - (len + 9) mod 64) mod 64)%nat in
  msg ++ [0x80] ++ repeat 0 zeros ++ be_bytes 8 (8 * N.of_nat len).

Definition word_bytes (x : N) : Buffer := map byte_of_N (be_bytes 4 x).

Definition output (s : state) : Buffer :=
  word_bytes (sa s) ++ word_bytes (sb s) ++ word_bytes (sc s) ++ word_bytes (sd s) ++
  word_bytes (se s) ++ word_bytes (sf s) ++ word_bytes (sg s) ++ word_bytes (sh s).

Definition digest (msg : Buffer) : Buffer :=
  let padded := pad (map Byte.to_N msg) in
  output (blocks (List.length padded / 64) padded init).

End SHA256.

(** Hexadecimal dump of a buffer, to compare digests with published ones. *)
Definition hex_digit (n : N) : ascii :=
  ascii_of_N (if (n <? 10)%N then 48 + n else 87 + n)%N.

Fixpoint to_hex (b : Buffer) : string :=
  match b with
  | [] => EmptyString
  | x :: rest =>
      String (hex_digit (Byte.to_N x / 16)) (String (hex_digit (Byte.to_N x mod 16)) (to_hex rest))
  end.

Definition ascii_bytes (s : string) : Buffer := map byte_of_ascii (list_ascii_of_string s).


(** ** JavaScript strings

    A string is its sequence of UTF-16 code units. *)

Definition code_unit : Type := N.
Definition jsstring : Type := list code_unit.

(** A string literal of the source, all of whose characters are ASCII. *)
Definition js (s : string) : jsstring := map N_of_ascii (list_ascii_of_string s).

(** What a string concatenation makes of [undefined]. *)
Definition js_undefined : jsstring := js "undefined".

Definition is_high_surrogate (c : code_unit) : bool :=
  ((0xD800 <=? c) && (c <=? 0xDBFF))%N.
Definition is_low_surrogate (c : code_unit) : bool :=
  ((0xDC00 <=? c) && (c <=? 0xDFFF))%N.

(** UTF-8 bytes of one code point. *)
Definition utf8_code_point (cp : N) : Buffer :=
  (if cp <? 0x80 then [byte_of_N cp]
   else if cp <? 0x800 then
     [byte_of_N (N.lor 0xC0 (N.shiftr cp 6));
      byte_of_N (N.lor 0x80 (N.land cp 0x3F))]
   else if cp <? 0x10000 then
     [byte_of_N (N.lor 0xE0 (N.shiftr cp 12));
      byte_of_N (N.lor 0x80 (N.land (N.shiftr cp 6) 0x3F));
      byte_of_N (N.lor 0x80 (N.land cp 0x3F))]
   else
     [byte_of_N (N.lor 0xF0 (N.shiftr cp 18));
      byte_of_N (N.lor 0x80 (N.land (N.shiftr cp 12) 0x3F));
      byte_of_N (N.lor 0x80 (N.land (N.shiftr cp 6) 0x3F));
      byte_of_N (N.lor 0x80 (N.land cp 0x3F))])%N.

(** The encoder behind [hash.update(input, 'utf8')]: a surrogate pair is one
    code point, a surrogate on its own becomes U+FFFD. *)
Fixpoint utf8 (s : jsstring) : Buffer :=
  match s with
  | [] => []
  | c :: rest =>
      if is_high_surrogate c then
        match rest with
        | d :: rest' =>
            if is_low_surrogate d
            then utf8_code_point (0x10000 + N.shiftl (c - 0xD800) 10 + (d - 0xDC00))%N
                   ++ utf8 rest'
            else utf8_code_point 0xFFFD%N ++ utf8 rest
        | [] => utf8_code_point 0xFFFD%N
        end
      else if is_low_surrogate c then utf8_code_point 0xFFFD%N ++ utf8 rest
      else utf8_code_point c ++ utf8 rest
  end.

(** White space and line terminators, the code units [trim] removes. *)
Definition is_white_space (c : code_unit) : bool :=
  (((0x09 <=? c) && (c <=? 0x0D)) || (c =? 0x20) || (c =? 0xA0) || (c =? 0x1680)
   || ((0x2000 <=? c) && (c <=? 0x200A)) || (c =? 0x2028) || (c =? 0x2029)
   || (c =? 0x202F) || (c =? 0x205F) || (c =? 0x3000) || (c =? 0xFEFF))%N.

Fixpoint trimStart (s : jsstring) : jsstring :=
  match s with
  | [] => []
  | c :: rest => if is_white_space c then trimStart rest else s
  end.

Definition trimEnd (s : jsstring) : jsstring := rev (trimStart (rev s)).

Definition trim (s : jsstring) : jsstring := trimEnd (trimStart s).

(** [s.split(sep)] for a separator of one code unit. *)
Fixpoint split (sep : code_unit) (s : jsstring) : list jsstring :=
  match s with
  | [] => [[]]
  | c :: rest =>
      if (c =? sep)%N then [] :: split sep rest
      else match split sep rest with
           | piece :: pieces => (c :: piece) :: pieces
           | [] => [[c]]
           end
  end.

(** ** Public keys of [@solana/web3.js]

    A [PublicKey] holds a big number [_bn]; it is built from at most 32
    significant bytes read big-endian, and [toBuffer] writes the number back
    on exactly 32 bytes. *)

Record PublicKey : Type := mkPublicKey { _bn : N }.

Definition BN_of_bytes (b : Buffer) : N :=
  fold_left (fun acc x => acc * 256 + Byte.to_N x)%N b 0%N.

(** [bn.byteLength()]: the number of bytes of the minimal representation. *)
Definition byteLength (n : N) : nat := N.to_nat ((N.size n + 7) / 8).

Fixpoint le_bytes (len : nat) (n : N) : Buffer :=
  match len with
  | O => []
  | S l => byte_of_N n :: le_bytes l (n / 256)
  end.

(** [bn.toArrayLike(Buffer, 'be', len)]. *)
Definition BN_to_bytes (len : nat) (n : N) : Buffer := rev (le_bytes len n).

(** [new PublicKey(value)] for a [Buffer]. *)
Definition PublicKey_new (value : Buffer) : result PublicKey :=
  let bn := BN_of_bytes value in
  if (32 <? byteLength bn)%nat then Throw "Invalid public key input"
  else Ok (mkPublicKey bn).

Definition toBuffer (k : PublicKey) : Buffer := BN_to_bytes 32 (_bn k).

(** Base58, for [new PublicKey(value)] on a string. *)
Definition base58_alphabet : list ascii :=
  list_ascii_of_string "123456789ABCDEFGHJKLMNPQRSTUVWXYZabcdefghijkmnopqrstuvwxyz".

Fixpoint index_of (c : ascii) (l : list ascii) (i : N) : option N :=
  match l with
  | [] => None
  | x :: rest => if Ascii.eqb c x then Some i else index_of c rest (i + 1)%N
  end.

Fixpoint base58_value (s : list ascii) (acc : N) : option N :=
  match s with
  | [] => Some acc
  | c :: rest =>
      match index_of c base58_alphabet 0%N with
      | Some d => base58_value rest (acc * 58 + d)%N
      | None => None
      end
  end.

Fixpoint leading_ones (s : list ascii) : nat :=
  match s with
  | "1"%char :: rest => S (leading_ones rest)
  | _ => O
  end.

Definition bs58_decode (s : string) : result Buffer :=
  let cs := list_ascii_of_string s in
  match base58_value cs 0%N with
  | Some n => Ok (repeat x00 (leading_ones cs) ++ BN_to_bytes (byteLength n) n)
  | None => Throw "Non-base58 character"
  end.

Definition PublicKey_of_string (value : string) : result PublicKey :=
  await decoded <- bs58_decode value ;;
  if (List.length decoded =? 32)%nat then Ok (mkPublicKey (BN_of_bytes decoded))
  else Throw "Invalid public key input".

(** ** The platform

    [findProgramAddress] is [PublicKey.findProgramAddress] of web3.js: it
    returns an address and the bump seed, or rejects when no bump seed gives
    an address off the curve.  [toLowerCase] is the method of strings. *)

Record Platform : Type := mkPlatform
  { findProgramAddress : list Buffer -> PublicKey -> result (PublicKey * N);
    toLowerCase : jsstring -> jsstring }.

(** [number] fields of an account are only copied, never computed with. *)
Definition number : Type := Z.

(** [AccountInfo<T>] of web3.js.  The [data] of a fetched account is a
    [Buffer]; the parser also guards against a missing one, hence the
    option where the parser reads it. *)
Module Web3.
Record AccountInfo (T : Type) : Type := mkAccountInfo
  { executable : bool;
    owner : PublicKey;
    lamports : number;
    data : T;
    rentEpoch : option number }.
End Web3.

(** The part of a web3.js [Connection] the queries use: [getAccountInfo]
    answers with the account stored at a key, [null] when there is none, or
    rejects. *)
Definition Commitment : Type := string.

Record Connection : Type := mkConnection
  { getAccountInfo :
      PublicKey -> option Commitment -> result (option (Web3.AccountInfo (option Buffer))) }.

(** ** [src/index.ts] *)

Module Index.
Section WithPlatform.
Context (P : Platform).

Definition NAME_PROGRAM_ID : PublicKey :=
  Eval vm_compute in
    match PublicKey_of_string "namesLPneVptA9Z5rqUDD9tMTWEJwofgaYwp8cawRkX" with
    | Ok k => k
    | Throw _ => mkPublicKey 0
    end.

Definition HASH_PREFIX : jsstring := js "SPL Name Service".

Definition getHashedName (name : jsstring) : Buffer :=
  let input := HASH_PREFIX ++ name in
  let buffer := SHA256.digest (utf8 input) in
  buffer.

Definition resolveNameAccountKey
  (hashed_name : Buffer) (nameClass nameParent : option PublicKey) : result PublicKey :=
  let seeds := [hashed_name] in
  let seeds :=
    match nameClass with
    | Some k => seeds ++ [toBuffer k]
    | None => seeds ++ [Buffer_alloc 32]
    end in
  let seeds :=
    match nameParent with
    | Some k => seeds ++ [toBuffer k]
    | None => seeds ++ [Buffer_alloc 32]
    end in
  await found <- findProgramAddress P seeds NAME_PROGRAM_ID ;;
  Ok (fst found).

Definition resolveNameAccountKeyByName
  (name : jsstring) (parent klass : option PublicKey) : result PublicKey :=
  resolveNameAccountKey (getHashedName name) klass parent.

(** The loop of [resolve_UTF8_ONS]; [n] is [i + 1], so that [n = 0] is the
    exit [i = -1], and [keys.unshift] is a cons. *)
Fixpoint resolve_loop (path : list jsstring) (n : nat)
  (parentNameKey : option PublicKey) (keys : list PublicKey) : result (list PublicKey) :=
  match n with
  | O => Ok keys
  | S i =>
      let name := nth i path js_undefined in
      await nameKey <- resolveNameAccountKeyByName name parentNameKey None ;;
      resolve_loop path i (Some nameKey) (nameKey :: keys)
  end.

Definition resolve_UTF8_ONS
  (path : list jsstring) (unknownParent : option PublicKey) : result (list PublicKey) :=
  if (List.length path =? 0)%nat
  then Throw "name path is empty array, can not create get the key path."
  else resolve_loop path (List.length path) unknownParent [].

Definition resolve_STD_ONS
  (domain : jsstring) (unknownParent : option PublicKey) : result (list PublicKey) :=
  let names := split 46%N (toLowerCase P (trim domain)) in
  resolve_UTF8_ONS names unknownParent.

(** The object [parseNameAccountInfo] returns. *)
Record NameAccount : Type := mkNameAccount
  { parentName : PublicKey;
    owner : PublicKey;
    class : PublicKey;
    data : Buffer;
    lamports : number;
    rentEpoch : option number }.

Definition parseNameAccountInfo
  (nameAccount : option (Web3.AccountInfo (option Buffer))) : result NameAccount :=
  let KEY_LEN := 32%nat in
  let HEADER_LEN := 96%nat in
  match nameAccount with
  | None => Throw "Unable to find the given account."
  | Some nameAccount =>
      match Web3.data nameAccount with
      | None => Throw "Invalid name account data"
      | Some bytes =>
          if (List.length bytes <? HEADER_LEN)%nat then Throw "Invalid name account data"
          else
            let parentNameKey := slice bytes 0 KEY_LEN in
            let ownerKey := slice bytes (1 * KEY_LEN) (2 * KEY_LEN) in
            let classKey := slice bytes (2 * KEY_LEN) (3 * KEY_LEN) in
            let extra := slice_from bytes HEADER_LEN in
            await parent_pk <- PublicKey_new parentNameKey ;;
            await owner_pk <- PublicKey_new ownerKey ;;
            await class_pk <- PublicKey_new classKey ;;
            Ok {| parentName := parent_pk;
                  owner := owner_pk;
                  class := class_pk;
                  data := extra;
                  lamports := Web3.lamports nameAccount;
                  rentEpoch := Web3.rentEpoch nameAccount |}
      end
  end.

Definition queryNameInfo
  (connection : Connection) (nameKey : PublicKey) (commitment : option Commitment)
  : result NameAccount :=
  await accountInfo <- getAccountInfo connection nameKey commitment ;;
  parseNameAccountInfo accountInfo.

End WithPlatform.
End Index.

(** ** The later revision of the file *)

Module Part000.
Section WithPlatform.
Context (P : Platform).

Definition NAME_PROGRAM_ID_BASE58 : string :=
  "namesLPneVptA9Z5rqUDD9tMTWEJwofgaYwp8cawRkX".

Definition NAME_PROGRAM_ID : PublicKey :=
  Eval vm_compute in
    match PublicKey_of_string NAME_PROGRAM_ID_BASE58 with
    | Ok k => k
    | Throw _ => mkPublicKey 0
    end.

Definition HASH_PREFIX : jsstring := js "SPL Name Service".

Definition getHashedName (name : jsstring) : Buffer :=
  let input := HASH_PREFIX ++ name in
  let buffer := SHA256.digest (utf8 input) in
  buffer.

Definition resolveNameAccountKey
  (hashed_name : Buffer) (nameClass nameParent : option PublicKey) : result PublicKey :=
  let seeds := [hashed_name] in
  let seeds :=
    match nameClass with
    | Some k => seeds ++ [toBuffer k]
    | None => seeds ++ [Buffer_alloc 32]
    end in
  let seeds :=
    match nameParent with
    | Some k => seeds ++ [toBuffer k]
    | None => seeds ++ [Buffer_alloc 32]
    end in
  await found <- findProgramAddress P seeds NAME_PROGRAM_ID ;;
  Ok (fst found).

Definition resolveNameAccountKeyByName
  (name : jsstring) (klass parent : option PublicKey) : result PublicKey :=
  resolveNameAccountKey (getHashedName name) klass parent.

Fixpoint resolve_loop (path : list jsstring) (n : nat)
  (parentNameKey : option PublicKey) (keys : list PublicKey) : result (list PublicKey) :=
  match n with
  | O => Ok keys
  | S i =>
      let name := nth i path js_undefined in
      await nameKey <- resolveNameAccountKeyByName name None parentNameKey ;;
      resolve_loop path i (Some nameKey) (nameKey :: keys)
  end.

Definition resolve_UTF8_ONS
  (path : list jsstring) (unknownParent : option PublicKey) : result (list PublicKey) :=
  if (List.length path =? 0)%nat
  then Throw "name path is empty array, can not create get the key path."
  else resolve_loop path (List.length path) unknownParent [].

Definition resolve_STD_ONS
  (domain : jsstring) (unknownParent : option PublicKey) : result (list PublicKey) :=
  let names := split 46%N (toLowerCase P (trim domain)) in
  resolve_UTF8_ONS names unknownParent.

Record NameData : Type := mkNameData
  { name : PublicKey;
    parentName : PublicKey;
    owner : PublicKey;
    class : PublicKey;
    extra : Buffer }.

Definition NameInfo : Type := Web3.AccountInfo NameData.

Definition parseNameAccountInfo
  (nameKey : PublicKey) (nameAccount : option (Web3.AccountInfo (option Buffer)))
  : result NameInfo :=
  let KEY_LEN := 32%nat in
  let HEADER_LEN := 96%nat in
  match nameAccount with
  | None => Throw "Unable to find the given account."
  | Some nameAccount =>
      match Web3.data nameAccount with
      | None => Throw "Invalid name account data"
      | Some bytes =>
          if (List.length bytes <? HEADER_LEN)%nat then Throw "Invalid name account data"
          else
            let parentNameKey := slice bytes 0 KEY_LEN in
            let ownerKey := slice bytes (1 * KEY_LEN) (2 * KEY_LEN) in
            let classKey := slice bytes (2 * KEY_LEN) (3 * KEY_LEN) in
            let extra_bytes := slice_from bytes HEADER_LEN in
            await parent_pk <- PublicKey_new parentNameKey ;;
            await owner_pk <- PublicKey_new ownerKey ;;
            await class_pk <- PublicKey_new classKey ;;
            Ok {| Web3.executable := Web3.executable nameAccount;
                  Web3.owner := Web3.owner nameAccount;
                  Web3.lamports := Web3.lamports nameAccount;
                  Web3.rentEpoch := Web3.rentEpoch nameAccount;
                  Web3.data := {| name := nameKey;
                                  parentName := parent_pk;
                                  owner := owner_pk;
                                  class := class_pk;
                                  extra := extra_bytes |} |}
      end
  end.

Definition queryNameInfo
  (connection : Connection) (nameKey : PublicKey) (commitment : option Commitment)
  : result NameInfo :=
  await accountInfo <- getAccountInfo connection nameKey commitment ;;
  parseNameAccountInfo nameKey accountInfo.

Definition queryNameData
  (connection : Connection) (nameKey : PublicKey) (commitment : option Commitment)
  : result NameData :=
  await ret <- queryNameInfo connection nameKey commitment ;;
  Ok (Web3.data ret).

End WithPlatform.
End Part000.

(** ** A platform to run the definitions on

    The address is the hash web3.js computes for the bump seed 255, taken
    without the test that it lies off the curve; lower-casing covers the
    ASCII letters. *)

Module Demo.

Definition findProgramAddress (seeds : list Buffer) (programId : PublicKey)
  : result (PublicKey * N) :=
  let bytes := List.concat seeds ++ [xff] ++ toBuffer programId
                 ++ ascii_bytes "ProgramDerivedAddress" in
  Ok (mkPublicKey (BN_of_bytes (SHA256.digest bytes)), 255%N).

Definition toLowerCase (s : jsstring) : jsstring :=
  map (fun c => if ((65 <=? c) && (c <=? 90))%N then (c + 32)%N else c) s.

Definition platform : Platform := mkPlatform findProgramAddress toLowerCase.

End Demo.

(** The little-endian value of a buffer; [BN_of_bytes] is this value of the
    reversed buffer. *)
Definition le_value (b : Buffer) : N :=
  fold_right (fun x acc => acc * 256 + Byte.to_N x)%N 0%N b.

(** ** The chain of addresses, as the specification words it

    The address of a label is derived from its hash, no class, and as parent
    the address of the label after it; the last label takes the caller's
    [unknownParent].  [chain] computes the addresses from the leaf up by
    recursion on the path, [chained] states the same label by label. *)

Definition next_parent (unknownParent : option PublicKey) (later : list PublicKey)
  : option PublicKey :=
  match later with
  | [] => unknownParent
  | k :: _ => Some k
  end.

Fixpoint chain (derive : jsstring -> option PublicKey -> result PublicKey)
  (path : list jsstring) (unknownParent : option PublicKey) : result (list PublicKey) :=
  match path with
  | [] => Ok []
  | label :: rest =>
      await later <- chain derive rest unknownParent ;;
      await k <- derive label (next_parent unknownParent later) ;;
      Ok (k :: later)
  end.

Definition chained (derive : jsstring -> option PublicKey -> result PublicKey)
  (path : list jsstring) (unknownParent : option PublicKey) (keys : list PublicKey) : Prop :=
  List.length keys = List.length path /\
  forall i label, nth_error path i = Some label ->
    exists k, nth_error keys i = Some k /\
      derive label (if (S i =? List.length path)%nat then unknownParent
                    else nth_error keys (S i)) = Ok k.

(** The derivation of one label in either file: its hash, class absent. *)
Definition Index_derive (P : Platform) (label : jsstring) (parent : option PublicKey)
  : result PublicKey :=
  Index.resolveNameAccountKey P (Index.getHashedName label) None parent.

Definition Part000_derive (P : Platform) (label : jsstring) (parent : option PublicKey)
  : result PublicKey :=
  Part000.resolveNameAccountKey P (Part000.getHashedName label) None parent.

(** The seed an optional key contributes. *)
Definition seed_or_zero (k : option PublicKey) : Buffer :=
  match k with
  | Some k => toBuffer k
  | None => repeat x00 32
  end.

(** The identifier whose 32 bytes are zero. *)
Definition zero_key : PublicKey := mkPublicKey 0.

(** An account of the name program to evaluate the decoder on, with a
    header of zero bytes and no payload. *)
Definition sample_account : Web3.AccountInfo (option Buffer) :=
  Web3.mkAccountInfo true Index.NAME_PROGRAM_ID 1%Z (Some (repeat x00 96)) None.

(** A connection that knows one account, stored at the zero key. *)
Definition sample_connection : Connection :=
  mkConnection (fun key _ =>
    Ok (if (_bn key =? 0)%N then Some sample_account else None)).

(** [pieces.join(sep)] for a separator of one code unit, the inverse of
    [split] on pieces without the separator. *)
Fixpoint join (sep : code_unit) (pieces : list jsstring) : jsstring :=
  match pieces with
  | [] => []
  | [piece] => piece
  | piece :: rest => piece ++ sep :: join sep rest
  end.

(** How many times a code unit occurs in a string. *)
Definition occurrences (c : code_unit) (s : jsstring) : nat :=
  List.length (filter (N.eqb c) s).

(** * Theorems *)

Lemma bind_Ok_inv {A B : Type} (c : result A) (k : A -> result B) (b : B) :
  bind c k = Ok b -> exists a, c = Ok a /\ k a = Ok b.
Proof.
  destruct c as [a | msg]; simpl; intro H.
  - exists a; split; [reflexivity | exact H].
  - discriminate H.
Qed.

Lemma bind_Throw_inv {A B : Type} (c : result A) (k : A -> result B) (e : string) :
  bind c k = Throw e -> c = Throw e \/ exists a, c = Ok a /\ k a = Throw e.
Proof.
  destruct c as [a | msg]; simpl; intro H.
  - right; exists a; split; [reflexivity | exact H].
  - left; injection H as ->; reflexivity.
Qed.

Lemma bind_bind {A B C : Type} (c : result A) (k : A -> result B) (h : B -> result C) :
  bind (bind c k) h = bind c (fun a => bind (k a) h).
Proof. destruct c; reflexivity. Qed.

Lemma bind_ext {A B : Type} (c : result A) (k h : A -> result B) :
  (forall a, k a = h a) -> bind c k = bind c h.
Proof. intro E; destruct c; simpl; [apply E | reflexivity]. Qed.

(** ** Bytes and big numbers *)

Lemma byte_of_to_N (b : byte) : byte_of_N (Byte.to_N b) = b.
Proof.
  unfold byte_of_N.
  pose proof (Byte.to_N_bounded b) as Hb.
  rewrite N.mod_small by lia.
  now rewrite Byte.of_to_N.
Qed.

Lemma byte_of_N_step (acc : N) (b : byte) :
  byte_of_N (acc * 256 + Byte.to_N b) = b.
Proof.
  unfold byte_of_N.
  pose proof (Byte.to_N_bounded b) as Hb.
  replace ((acc * 256 + Byte.to_N b) mod 256)%N with (Byte.to_N b).
  - now rewrite Byte.of_to_N.
  - rewrite N.add_comm, N.Div0.mod_add. symmetry. apply N.mod_small. lia.
Qed.

Lemma BN_of_bytes_rev (b : Buffer) : BN_of_bytes b = le_value (rev b).
Proof.
  unfold BN_of_bytes, le_value. now rewrite fold_left_rev_right.
Qed.

Lemma le_bytes_value (b : Buffer) : le_bytes (List.length b) (le_value b) = b.
Proof.
  induction b as [| x b IH]; simpl; [reflexivity |].
  rewrite byte_of_N_step. f_equal.
  pose proof (Byte.to_N_bounded x) as Hx.
  replace ((le_value b * 256 + Byte.to_N x) / 256)%N with (le_value b); [exact IH |].
  rewrite N.add_comm, N.div_add by lia.
  rewrite N.div_small by lia. reflexivity.
Qed.

Lemma le_value_bound (b : Buffer) : (le_value b < 256 ^ N.of_nat (List.length b))%N.
Proof.
  induction b as [| x b IH]; [simpl; lia |].
  cbn [le_value fold_right List.length]. fold (le_value b).
  pose proof (Byte.to_N_bounded x) as Hx.
  rewrite Nat2N.inj_succ, N.pow_succ_r'. lia.
Qed.

(** Reading a buffer as a number and writing the number back on as many
    bytes gives the buffer. *)
Lemma BN_to_of_bytes (b : Buffer) : BN_to_bytes (List.length b) (BN_of_bytes b) = b.
Proof.
  unfold BN_to_bytes. rewrite BN_of_bytes_rev.
  rewrite <- (length_rev b), le_bytes_value. apply rev_involutive.
Qed.

Lemma byteLength_le (n : N) (len : nat) :
  (n < 256 ^ N.of_nat len)%N -> (byteLength n <= len)%nat.
Proof.
  intro Hn. unfold byteLength.
  assert (Hs : (N.size n <= 8 * N.of_nat len)%N).
  { destruct (N.eq_dec n 0) as [-> | Hz]; [simpl; lia |].
    rewrite N.size_log2 by exact Hz.
    apply N.le_succ_l. apply N.log2_lt_pow2; [lia |].
    replace (2 ^ (8 * N.of_nat len))%N with (256 ^ N.of_nat len)%N; [exact Hn |].
    change 256%N with (2 ^ 8)%N. now rewrite <- N.pow_mul_r. }
  assert (Hd : ((N.size n + 7) / 8 <= N.of_nat len)%N).
  { apply N.lt_succ_r. apply N.Div0.div_lt_upper_bound. lia. }
  lia.
Qed.

(** [new PublicKey(b).toBuffer()] is [b] for a buffer of 32 bytes. *)
Lemma PublicKey_new_32 (b : Buffer) :
  List.length b = 32%nat ->
  PublicKey_new b = Ok (mkPublicKey (BN_of_bytes b)) /\
  toBuffer (mkPublicKey (BN_of_bytes b)) = b.
Proof.
  intro Hlen. split.
  - unfold PublicKey_new.
    assert (Hb : (byteLength (BN_of_bytes b) <= 32)%nat).
    { apply byteLength_le. rewrite BN_of_bytes_rev.
      pose proof (le_value_bound (rev b)) as H.
      rewrite length_rev, Hlen in H. exact H. }
    destruct (Nat.ltb_spec 32 (byteLength (BN_of_bytes b))) as [Hgt | _]; [lia | reflexivity].
  - unfold toBuffer; cbn [_bn]. rewrite <- Hlen. apply BN_to_of_bytes.
Qed.

(** ** Slices *)

Lemma firstn_skipn_exact (a b : Buffer) (n : nat) :
  List.length a = n -> firstn n (a ++ b) = a /\ skipn n (a ++ b) = b.
Proof.
  intros <-. split.
  - rewrite firstn_app, Nat.sub_diag, firstn_all. simpl. apply app_nil_r.
  - rewrite skipn_app, Nat.sub_diag, skipn_all. reflexivity.
Qed.

Lemma slice_length (d : Buffer) (start stop : nat) :
  (stop <= List.length d)%nat -> List.length (slice d start stop) = (stop - start)%nat.
Proof.
  intro H. unfold slice. rewrite length_firstn, length_skipn. lia.
Qed.

(** The four slices of a record laid out as header and payload. *)
Lemma slices_of_record (p o c payload : Buffer) :
  List.length p = 32%nat -> List.length o = 32%nat -> List.length c = 32%nat ->
  let d := p ++ o ++ c ++ payload in
  slice d 0 32 = p /\ slice d 32 64 = o /\ slice d 64 96 = c /\ slice_from d 96 = payload.
Proof.
  intros Hp Ho Hc d. unfold slice, slice_from, d.
  destruct (firstn_skipn_exact p (o ++ c ++ payload) Hp) as [Fp Sp].
  destruct (firstn_skipn_exact o (c ++ payload) Ho) as [Fo So].
  destruct (firstn_skipn_exact c payload Hc) as [Fc Sc].
  assert (S64 : skipn 64 (p ++ o ++ c ++ payload) = c ++ payload).
  { rewrite <- (skipn_skipn 32 32), Sp, So. reflexivity. }
  assert (S96 : skipn 96 (p ++ o ++ c ++ payload) = payload).
  { rewrite <- (skipn_skipn 32 64), S64, Sc. reflexivity. }
  change (32 - 0)%nat with 32%nat. change (64 - 32)%nat with 32%nat.
  change (96 - 64)%nat with 32%nat.
  rewrite S64, S96, Sp, Fo, Fc.
  change (skipn 0 (p ++ o ++ c ++ payload)) with (p ++ o ++ c ++ payload).
  rewrite Fp. repeat split; reflexivity.
Qed.

(** ** The decoder on a record that has its header *)

Section Decoder.

Lemma Index_parse_header (acc : Web3.AccountInfo (option Buffer)) (d : Buffer) :
  Web3.data acc = Some d -> (96 <= List.length d)%nat ->
  Index.parseNameAccountInfo (Some acc) =
    Ok (Index.mkNameAccount
          (mkPublicKey (BN_of_bytes (slice d 0 32)))
          (mkPublicKey (BN_of_bytes (slice d 32 64)))
          (mkPublicKey (BN_of_bytes (slice d 64 96)))
          (slice_from d 96)
          (Web3.lamports acc) (Web3.rentEpoch acc)).
Proof.
  intros Hd Hlen. unfold Index.parseNameAccountInfo. rewrite Hd.
  destruct (Nat.ltb_spec (List.length d) 96) as [Hlt | _]; [lia |].
  cbn zeta. change (1 * 32)%nat with 32%nat. change (2 * 32)%nat with 64%nat.
  change (3 * 32)%nat with 96%nat.
  destruct (PublicKey_new_32 (slice d 0 32)) as [-> _]; [rewrite slice_length; lia |].
  destruct (PublicKey_new_32 (slice d 32 64)) as [-> _]; [rewrite slice_length; lia |].
  destruct (PublicKey_new_32 (slice d 64 96)) as [-> _]; [rewrite slice_length; lia |].
  reflexivity.
Qed.

Lemma Part000_parse_header
  (nameKey : PublicKey) (acc : Web3.AccountInfo (option Buffer)) (d : Buffer) :
  Web3.data acc = Some d -> (96 <= List.length d)%nat ->
  Part000.parseNameAccountInfo nameKey (Some acc) =
    Ok (Web3.mkAccountInfo (Web3.executable acc) (Web3.owner acc) (Web3.lamports acc)
          (Part000.mkNameData nameKey
             (mkPublicKey (BN_of_bytes (slice d 0 32)))
             (mkPublicKey (BN_of_bytes (slice d 32 64)))
             (mkPublicKey (BN_of_bytes (slice d 64 96)))
             (slice_from d 96))
          (Web3.rentEpoch acc)).
Proof.
  intros Hd Hlen. unfold Part000.parseNameAccountInfo. rewrite Hd.
  destruct (Nat.ltb_spec (List.length d) 96) as [Hlt | _]; [lia |].
  cbn zeta. change (1 * 32)%nat with 32%nat. change (2 * 32)%nat with 64%nat.
  change (3 * 32)%nat with 96%nat.
  destruct (PublicKey_new_32 (slice d 0 32)) as [-> _]; [rewrite slice_length; lia |].
  destruct (PublicKey_new_32 (slice d 32 64)) as [-> _]; [rewrite slice_length; lia |].
  destruct (PublicKey_new_32 (slice d 64 96)) as [-> _]; [rewrite slice_length; lia |].
  reflexivity.
Qed.

Lemma Index_parse_short (acc : Web3.AccountInfo (option Buffer)) :
  (forall d, Web3.data acc = Some d -> (List.length d < 96)%nat) ->
  Index.parseNameAccountInfo (Some acc) = Throw "Invalid name account data".
Proof.
  intro H. unfold Index.parseNameAccountInfo.
  destruct (Web3.data acc) as [d |]; [| reflexivity].
  specialize (H d eq_refl).
  destruct (Nat.ltb_spec (List.length d) 96) as [_ | Hge]; [reflexivity | lia].
Qed.

Lemma Part000_parse_short (nameKey : PublicKey) (acc : Web3.AccountInfo (option Buffer)) :
  (forall d, Web3.data acc = Some d -> (List.length d < 96)%nat) ->
  Part000.parseNameAccountInfo nameKey (Some acc) = Throw "Invalid name account data".
Proof.
  intro H. unfold Part000.parseNameAccountInfo.
  destruct (Web3.data acc) as [d |]; [| reflexivity].
  specialize (H d eq_refl).
  destruct (Nat.ltb_spec (List.length d) 96) as [_ | Hge]; [reflexivity | lia].
Qed.

End Decoder.

(** ** The chain *)

Lemma bind_Ok_r {A : Type} (c : result A) : bind c Ok = c.
Proof. destruct c; reflexivity. Qed.

Section Chain.
Variable derive : jsstring -> option PublicKey -> result PublicKey.

Lemma chain_length (path : list jsstring) (up : option PublicKey) (keys : list PublicKey) :
  chain derive path up = Ok keys -> List.length keys = List.length path.
Proof.
  revert keys. induction path as [| label rest IH]; simpl; intros keys H.
  - injection H as <-. reflexivity.
  - apply bind_Ok_inv in H as (later & Hl & H).
    apply bind_Ok_inv in H as (k & _ & H).
    injection H as <-. simpl. f_equal. now apply IH.
Qed.

Lemma next_parent_app (up : option PublicKey) (ka kb : list PublicKey) :
  next_parent up (ka ++ kb) = next_parent (next_parent up kb) ka.
Proof. destruct ka; reflexivity. Qed.

(** Resolving a path is resolving a suffix of it, then the labels before
    the suffix with the suffix's first address as their parent. *)
Lemma chain_app (a b : list jsstring) (up : option PublicKey) :
  chain derive (a ++ b) up =
  bind (chain derive b up) (fun kb =>
    bind (chain derive a (next_parent up kb)) (fun ka => Ok (ka ++ kb))).
Proof.
  induction a as [| label a IH]; simpl.
  - symmetry. apply bind_Ok_r.
  - rewrite IH, bind_bind. apply bind_ext; intro kb.
    rewrite !bind_bind. apply bind_ext; intro ka. simpl.
    rewrite next_parent_app, bind_bind. apply bind_ext; intro k. reflexivity.
Qed.

Lemma chain_chained (path : list jsstring) (up : option PublicKey) (keys : list PublicKey) :
  chain derive path up = Ok keys <-> chained derive path up keys.
Proof.
  revert keys. induction path as [| label rest IH]; intro keys.
  - simpl. split.
    + intro H. injection H as <-. split; [reflexivity |].
      intros [| i] l Hn; discriminate Hn.
    + intros [Hlen _]. destruct keys; [reflexivity | discriminate Hlen].
  - split.
    + intro H. simpl in H.
      apply bind_Ok_inv in H as (later & Hl & H).
      apply bind_Ok_inv in H as (k & Hk & H). injection H as <-.
      pose proof (chain_length _ _ Hl) as Hlen.
      apply IH in Hl as [_ Hrest].
      split; [simpl; now f_equal |].
      intros [| i] l Hn; simpl in Hn.
      * injection Hn as <-. exists k. split; [reflexivity |].
        simpl. destruct rest as [| l' rest'], later as [| k' later']; try discriminate Hlen;
          exact Hk.
      * destruct (Hrest i l Hn) as (ki & Hki & Hd). exists ki. split; [exact Hki |].
        exact Hd.
    + intros [Hlen Hall]. destruct keys as [| k later]; [discriminate Hlen |].
      injection Hlen as Hlen.
      assert (Hl : chain derive rest up = Ok later).
      { apply IH. split; [exact Hlen |].
        intros i l Hn. destruct (Hall (S i) l Hn) as (ki & Hki & Hd).
        exists ki. split; [exact Hki | exact Hd]. }
      simpl. rewrite Hl. simpl.
      destruct (Hall O label eq_refl) as (k0 & Hk0 & Hd).
      injection Hk0 as <-.
      replace (next_parent up later)
        with (if (1 =? List.length (label :: rest))%nat then up else nth_error (k :: later) 1).
      * rewrite Hd. reflexivity.
      * simpl. destruct rest, later; try discriminate Hlen; reflexivity.
Qed.

(** A chain is rejected only with the error of one of its derivations. *)
Lemma chain_Throw (path : list jsstring) (up : option PublicKey) (e : string) :
  chain derive path up = Throw e ->
  exists label parent, In label path /\ derive label parent = Throw e.
Proof.
  induction path as [| label rest IH]; simpl; intro H; [discriminate H |].
  apply bind_Throw_inv in H as [H | (later & _ & H)].
  - destruct (IH H) as (l & p & Hin & Hd). exists l, p. auto.
  - apply bind_Throw_inv in H as [H | (k & _ & H)]; [| discriminate H].
    exists label, (next_parent up later). auto.
Qed.

End Chain.

(** ** The loop of the resolver *)

Section Resolver.
Context (P : Platform).

Lemma resolveNameAccountKey_seeds
  (hashed_name : Buffer) (nameClass nameParent : option PublicKey) :
  Index.resolveNameAccountKey P hashed_name nameClass nameParent =
  bind (findProgramAddress P [hashed_name; seed_or_zero nameClass; seed_or_zero nameParent]
          Index.NAME_PROGRAM_ID)
       (fun found => Ok (fst found)).
Proof.
  unfold Index.resolveNameAccountKey.
  destruct nameClass, nameParent; reflexivity.
Qed.

(** The two files have the same key derivation and the same hash. *)
Lemma resolveNameAccountKey_same
  (hashed_name : Buffer) (nameClass nameParent : option PublicKey) :
  Part000.resolveNameAccountKey P hashed_name nameClass nameParent =
  Index.resolveNameAccountKey P hashed_name nameClass nameParent.
Proof. reflexivity. Qed.

Lemma byName_swapped (label : jsstring) (parent klass : option PublicKey) :
  Index.resolveNameAccountKeyByName P label parent klass =
  Part000.resolveNameAccountKeyByName P label klass parent.
Proof. reflexivity. Qed.

Lemma derive_same (label : jsstring) (parent : option PublicKey) :
  Part000_derive P label parent = Index_derive P label parent.
Proof. reflexivity. Qed.

Lemma resolve_loop_same (path : list jsstring) (n : nat)
  (parent : option PublicKey) (keys : list PublicKey) :
  Part000.resolve_loop P path n parent keys = Index.resolve_loop P path n parent keys.
Proof.
  revert parent keys. induction n as [| i IH]; intros parent keys; [reflexivity |].
  cbn [Part000.resolve_loop Index.resolve_loop].
  rewrite <- byName_swapped. apply bind_ext; intro k. apply IH.
Qed.

Lemma resolve_UTF8_ONS_same (path : list jsstring) (up : option PublicKey) :
  Part000.resolve_UTF8_ONS P path up = Index.resolve_UTF8_ONS P path up.
Proof.
  unfold Part000.resolve_UTF8_ONS, Index.resolve_UTF8_ONS.
  destruct (List.length path =? 0)%nat; [reflexivity | apply resolve_loop_same].
Qed.

(** With [i + 1] labels still to do, the loop prepends their chain to the
    addresses it already holds. *)
Lemma resolve_loop_chain (todo done : list jsstring)
  (parent : option PublicKey) (keys : list PublicKey) :
  Index.resolve_loop P (todo ++ done) (List.length todo) parent keys =
  bind (chain (Index_derive P) todo parent) (fun ks => Ok (ks ++ keys)).
Proof.
  revert done parent keys.
  induction todo as [| label todo IH] using rev_ind; intros done parent keys.
  - reflexivity.
  - rewrite length_app, Nat.add_comm. cbn [List.length Nat.add Index.resolve_loop].
    rewrite <- app_assoc. cbn [app].
    rewrite nth_middle.
    change (Index.resolveNameAccountKeyByName P label parent None)
      with (Index_derive P label parent).
    rewrite chain_app. cbn [chain bind next_parent]. rewrite !bind_bind.
    apply bind_ext; intro k. cbn [bind next_parent].
    rewrite IH, bind_bind.
    apply bind_ext; intro ks. cbn [bind]. now rewrite <- app_assoc.
Qed.

Lemma resolve_UTF8_ONS_is_chain (path : list jsstring) (up : option PublicKey) :
  path <> [] -> Index.resolve_UTF8_ONS P path up = chain (Index_derive P) path up.
Proof.
  intro Hne. unfold Index.resolve_UTF8_ONS.
  destruct path as [| l rest]; [contradiction |].
  cbn [List.length Nat.eqb].
  pose proof (resolve_loop_chain (l :: rest) [] up []) as H.
  rewrite app_nil_r in H. cbn [List.length] in H. rewrite H.
  rewrite <- (bind_Ok_r (chain (Index_derive P) (l :: rest) up)) at 2.
  apply bind_ext; intro ks. now rewrite app_nil_r.
Qed.

Lemma derive_Throw (label : jsstring) (parent : option PublicKey) (e : string) :
  Index_derive P label parent = Throw e ->
  findProgramAddress P
    [Index.getHashedName label; repeat x00 32; seed_or_zero parent]
    Index.NAME_PROGRAM_ID = Throw e.
Proof.
  unfold Index_derive. rewrite resolveNameAccountKey_seeds. intro H.
  apply bind_Throw_inv in H as [H | (found & _ & H)]; [exact H | discriminate H].
Qed.

End Resolver.

(** ** Hashing, encoding and splitting *)

Lemma word_bytes_length (x : N) : List.length (SHA256.word_bytes x) = 4%nat.
Proof. reflexivity. Qed.

Lemma digest_length (msg : Buffer) : List.length (SHA256.digest msg) = 32%nat.
Proof.
  unfold SHA256.digest, SHA256.output.
  rewrite !length_app, !word_bytes_length. reflexivity.
Qed.

(** A string that starts with ASCII characters is encoded as those
    characters followed by the encoding of the rest. *)
Lemma utf8_ascii_app (pre s : jsstring) :
  Forall (fun c => (c < 0x80)%N) pre -> utf8 (pre ++ s) = map byte_of_N pre ++ utf8 s.
Proof.
  induction 1 as [| c pre Hc _ IH]; [reflexivity |].
  cbn [app utf8 map].
  assert (Hh : is_high_surrogate c = false).
  { unfold is_high_surrogate. destruct (N.leb_spec 0xD800 c); [lia | reflexivity]. }
  assert (Hl : is_low_surrogate c = false).
  { unfold is_low_surrogate. destruct (N.leb_spec 0xDC00 c); [lia | reflexivity]. }
  rewrite Hh, Hl, IH. unfold utf8_code_point.
  destruct (N.ltb_spec c 0x80); [reflexivity | lia].
Qed.

Lemma HASH_PREFIX_ascii : Forall (fun c => (c < 0x80)%N) Index.HASH_PREFIX.
Proof. repeat constructor. Qed.

Lemma getHashedName_prefix (name : jsstring) :
  Index.getHashedName name =
  SHA256.digest (ascii_bytes "SPL Name Service" ++ utf8 name).
Proof.
  unfold Index.getHashedName. cbn zeta.
  rewrite (utf8_ascii_app name HASH_PREFIX_ascii). reflexivity.
Qed.

Lemma split_not_nil (sep : code_unit) (s : jsstring) : split sep s <> [].
Proof.
  destruct s as [| c rest]; simpl; [discriminate |].
  destruct (c =? sep)%N; [discriminate |].
  destruct (split sep rest); discriminate.
Qed.

Lemma chain_total (derive : jsstring -> option PublicKey -> result PublicKey)
  (path : list jsstring) (up : option PublicKey) :
  (forall label parent, exists k, derive label parent = Ok k) ->
  exists keys, chain derive path up = Ok keys.
Proof.
  intro Hd. induction path as [| label rest [later IH]]; simpl.
  - now exists [].
  - rewrite IH. simpl. destruct (Hd label (next_parent up later)) as [k Hk].
    rewrite Hk. simpl. now exists (k :: later).
Qed.

(** ** Published values the definitions reproduce *)

Example sha256_abc :
  to_hex (SHA256.digest (ascii_bytes "abc")) =
  "ba7816bf8f01cfea414140de5dae2223b00361a396177a9cb410ff61f20015ad"%string.
Proof. vm_compute. reflexivity. Qed.

Example sha256_empty :
  to_hex (SHA256.digest []) =
  "e3b0c44298fc1c149afbf4c8996fb92427ae41e4649b934ca495991b7852b855"%string.
Proof. vm_compute. reflexivity. Qed.

Example sha256_two_blocks :
  to_hex (SHA256.digest (repeat "a"%byte 119)) =
  "31eba51c313a5c08226adf18d4a359cfdfd8d2e816b13f4af952f7ea6584dcfb"%string.
Proof. vm_compute. reflexivity. Qed.

Example utf8_sample :
  to_hex (utf8 [0x951; 0x82EF; 0xD83D; 0xDE00; 0xD83D; 0x41; 0xDE00]%N) =
  "e0a591e88baff09f9880efbfbd41efbfbd"%string.
Proof. vm_compute. reflexivity. Qed.

Example NAME_PROGRAM_ID_bytes :
  to_hex (toBuffer Index.NAME_PROGRAM_ID) =
  "0bad51f413c1f3a99460d900d8bf2ed6927eca34d7b7842bf810a973082d1edc"%string.
Proof. vm_compute. reflexivity. Qed.

Example split_sample :
  split 46%N (js "a.b..c.") = [js "a"; js "b"; js ""; js "c"; js ""].
Proof. reflexivity. Qed.

(** * Properties of the specification *)

(** C1.  For a non-empty path, [resolve_UTF8_ONS] of either file returns
    [keys] exactly when [keys] has the length of the path and, label by
    label in the order of the path, the address of the last label is derived
    from its hash with no class and parent [unknownParent], and the address
    of every earlier label from its hash with no class and as parent the
    address of the label after it.  The call is rejected only with the error
    of the address search for one of the labels, and it returns whenever the
    address search does. *)
Theorem resolve_UTF8_ONS_chained
  (P : Platform) (path : list jsstring) (unknownParent : option PublicKey) :
  path <> [] ->
  (forall keys,
     Index.resolve_UTF8_ONS P path unknownParent = Ok keys <->
     chained (fun label parent =>
                Index.resolveNameAccountKey P (Index.getHashedName label) None parent)
             path unknownParent keys) /\
  (forall keys,
     Part000.resolve_UTF8_ONS P path unknownParent = Ok keys <->
     chained (fun label parent =>
                Part000.resolveNameAccountKey P (Part000.getHashedName label) None parent)
             path unknownParent keys) /\
  (forall e,
     Index.resolve_UTF8_ONS P path unknownParent = Throw e \/
     Part000.resolve_UTF8_ONS P path unknownParent = Throw e ->
     exists label parent,
       In label path /\
       findProgramAddress P
         [Index.getHashedName label; repeat x00 32; seed_or_zero parent]
         Index.NAME_PROGRAM_ID = Throw e) /\
  ((forall seeds, exists found,
      findProgramAddress P seeds Index.NAME_PROGRAM_ID = Ok found) ->
   exists keys,
     Index.resolve_UTF8_ONS P path unknownParent = Ok keys /\
     Part000.resolve_UTF8_ONS P path unknownParent = Ok keys /\
     List.length keys = List.length path).
Proof.
  intro Hne.
  pose proof (resolve_UTF8_ONS_is_chain P unknownParent Hne) as HI.
  pose proof (resolve_UTF8_ONS_same P path unknownParent) as HP.
  split; [| split; [| split]].
  - intro keys. rewrite HI. apply (chain_chained (Index_derive P)).
  - intro keys. rewrite HP, HI. apply (chain_chained (Index_derive P)).
  - intros e He.
    assert (H : chain (Index_derive P) path unknownParent = Throw e).
    { rewrite <- HI. destruct He as [He | He]; [exact He | now rewrite <- HP]. }
    apply chain_Throw in H as (label & parent & Hin & Hd).
    exists label, parent. split; [exact Hin | now apply derive_Throw].
  - intro Htotal.
    destruct (chain_total (Index_derive P) path unknownParent) as [keys Hk].
    { intros label parent. unfold Index_derive. rewrite resolveNameAccountKey_seeds.
      destruct (Htotal [Index.getHashedName label; seed_or_zero None; seed_or_zero parent])
        as [found ->].
      now exists (fst found). }
    exists keys. rewrite HP, HI. repeat split; try exact Hk.
    now apply chain_length in Hk.
Qed.

Lemma resolve_UTF8_ONS_chained_witness :
  [js "a"; js "b"; js "c"] <> [] /\
  exists keys,
    Index.resolve_UTF8_ONS Demo.platform [js "a"; js "b"; js "c"] None = Ok keys /\
    chained (fun label parent =>
               Index.resolveNameAccountKey Demo.platform
                 (Index.getHashedName label) None parent)
            [js "a"; js "b"; js "c"] None keys.
Proof.
  assert (Hne : [js "a"; js "b"; js "c"] <> []) by discriminate.
  split; [exact Hne |].
  eexists. split; [vm_compute; reflexivity |].
  apply (resolve_UTF8_ONS_chained Demo.platform None Hne).
  vm_compute. reflexivity.
Defined.

(** C2.  Resolving a non-empty suffix of a path on its own, from the same
    [unknownParent], gives the trailing addresses of the whole path: when
    the whole path resolves to [keys] the suffix resolves to [keys] without
    its first [length before] elements, an error of the suffix is the error
    of the whole path, and the labels before the suffix resolved with the
    first address of the suffix as parent complete the result.  So the last
    two addresses of ["a"; "b"; "c"] are the addresses of ["b"; "c"]. *)
Theorem resolve_UTF8_ONS_suffix
  (P : Platform) (before suffix : list jsstring) (unknownParent : option PublicKey) :
  suffix <> [] ->
  (forall keys,
     Index.resolve_UTF8_ONS P (before ++ suffix) unknownParent = Ok keys ->
     Index.resolve_UTF8_ONS P suffix unknownParent = Ok (skipn (List.length before) keys)) /\
  (forall e,
     Index.resolve_UTF8_ONS P suffix unknownParent = Throw e ->
     Index.resolve_UTF8_ONS P (before ++ suffix) unknownParent = Throw e) /\
  (forall ks kb,
     before <> [] ->
     Index.resolve_UTF8_ONS P suffix unknownParent = Ok ks ->
     Index.resolve_UTF8_ONS P before (next_parent unknownParent ks) = Ok kb ->
     Index.resolve_UTF8_ONS P (before ++ suffix) unknownParent = Ok (kb ++ ks)) /\
  (forall keys,
     Index.resolve_UTF8_ONS P [js "a"; js "b"; js "c"] unknownParent = Ok keys ->
     Index.resolve_UTF8_ONS P [js "b"; js "c"] unknownParent = Ok (skipn 1 keys)).
Proof.
  intro Hne.
  assert (Hsuffix : forall (b s : list jsstring) keys, s <> [] ->
            Index.resolve_UTF8_ONS P (b ++ s) unknownParent = Ok keys ->
            Index.resolve_UTF8_ONS P s unknownParent = Ok (skipn (List.length b) keys)).
  { intros b s keys Hs H.
    assert (Hbs : b ++ s <> []) by (destruct b, s; try discriminate; contradiction).
    rewrite (resolve_UTF8_ONS_is_chain P unknownParent Hbs), chain_app in H.
    rewrite (resolve_UTF8_ONS_is_chain P unknownParent Hs).
    apply bind_Ok_inv in H as (ks & Hks & H).
    apply bind_Ok_inv in H as (kb & Hkb & H). injection H as <-.
    apply chain_length in Hkb. rewrite <- Hkb.
    rewrite skipn_app, Nat.sub_diag, skipn_all. exact Hks. }
  split; [| split; [| split]].
  - intros keys. now apply Hsuffix.
  - intros e H.
    assert (Hbs : before ++ suffix <> [])
      by (destruct before, suffix; try discriminate; contradiction).
    rewrite (resolve_UTF8_ONS_is_chain P unknownParent Hbs), chain_app.
    rewrite (resolve_UTF8_ONS_is_chain P unknownParent Hne) in H.
    now rewrite H.
  - intros ks kb Hb Hs Hk.
    assert (Hbs : before ++ suffix <> [])
      by (destruct before, suffix; try discriminate; contradiction).
    rewrite (resolve_UTF8_ONS_is_chain P unknownParent Hbs), chain_app.
    rewrite (resolve_UTF8_ONS_is_chain P unknownParent Hne) in Hs.
    rewrite (resolve_UTF8_ONS_is_chain P (next_parent unknownParent ks) Hb) in Hk.
    rewrite Hs. cbn [bind]. rewrite Hk. reflexivity.
  - intros keys. apply (Hsuffix [js "a"] [js "b"; js "c"]). discriminate.
Qed.

Lemma resolve_UTF8_ONS_suffix_witness :
  [js "b"; js "c"] <> [] /\
  exists keys,
    Index.resolve_UTF8_ONS Demo.platform ([js "a"] ++ [js "b"; js "c"]) None = Ok keys /\
    Index.resolve_UTF8_ONS Demo.platform [js "b"; js "c"] None = Ok (skipn 1 keys).
Proof.
  assert (Hne : [js "b"; js "c"] <> []) by discriminate.
  split; [exact Hne |].
  eexists. split; [vm_compute; reflexivity |].
  apply (resolve_UTF8_ONS_suffix Demo.platform [js "a"] None Hne).
  vm_compute. reflexivity.
Defined.

(** C3.  [getHashedName] is a function of every string: it returns the
    SHA-256 digest, 32 bytes long, of the ASCII bytes of the prefix
    [SPL Name Service] followed by the UTF-8 encoding of the label, in both
    files; labels that differ only in case have different hashes. *)
Theorem getHashedName_sha256 (name : jsstring) :
  Index.getHashedName name =
    SHA256.digest (ascii_bytes "SPL Name Service" ++ utf8 name) /\
  Part000.getHashedName name = Index.getHashedName name /\
  utf8 (js "SPL Name Service" ++ name) = ascii_bytes "SPL Name Service" ++ utf8 name /\
  List.length (Index.getHashedName name) = 32%nat /\
  Index.getHashedName (js "A") <> Index.getHashedName (js "a").
Proof.
  split; [apply getHashedName_prefix |].
  split; [reflexivity |].
  split; [apply (utf8_ascii_app name HASH_PREFIX_ascii) |].
  split; [apply digest_length |].
  intro H. vm_compute in H. discriminate H.
Qed.

(** C4.  [resolveNameAccountKey] hands the address search the three seeds
    digest, class and parent, an absent class or parent being 32 zero bytes,
    together with [NAME_PROGRAM_ID], the key written
    [namesLPneVptA9Z5rqUDD9tMTWEJwofgaYwp8cawRkX]; with both absent it is the
    call with the zero identifier for both. *)
Theorem resolveNameAccountKey_zero_fill (P : Platform)
  (digest : Buffer) (nameClass nameParent : option PublicKey) :
  Index.resolveNameAccountKey P digest nameClass nameParent =
    bind (findProgramAddress P
            [digest;
             match nameClass with Some k => toBuffer k | None => repeat x00 32 end;
             match nameParent with Some k => toBuffer k | None => repeat x00 32 end]
            Index.NAME_PROGRAM_ID)
         (fun found => Ok (fst found)) /\
  Part000.resolveNameAccountKey P digest nameClass nameParent =
    Index.resolveNameAccountKey P digest nameClass nameParent /\
  Index.resolveNameAccountKey P digest None None =
    Index.resolveNameAccountKey P digest (Some zero_key) (Some zero_key) /\
  toBuffer zero_key = repeat x00 32 /\
  PublicKey_new (Buffer_alloc 32) = Ok zero_key /\
  PublicKey_of_string "namesLPneVptA9Z5rqUDD9tMTWEJwofgaYwp8cawRkX" =
    Ok Index.NAME_PROGRAM_ID.
Proof.
  split; [apply resolveNameAccountKey_seeds |].
  split; [reflexivity |].
  split; [reflexivity |].
  split; [reflexivity |].
  split; [reflexivity |].
  vm_compute. reflexivity.
Qed.

(** C7.  On a path with no label [resolve_UTF8_ONS] throws its empty-path
    error, in both files, and returns no list. *)
Theorem resolve_UTF8_ONS_empty_path (P : Platform) (unknownParent : option PublicKey) :
  Index.resolve_UTF8_ONS P [] unknownParent =
    Throw "name path is empty array, can not create get the key path." /\
  Part000.resolve_UTF8_ONS P [] unknownParent =
    Throw "name path is empty array, can not create get the key path." /\
  (forall keys, Index.resolve_UTF8_ONS P [] unknownParent <> Ok keys) /\
  (forall keys, Part000.resolve_UTF8_ONS P [] unknownParent <> Ok keys).
Proof.
  repeat split; intros keys H; discriminate H.
Qed.

(** C8.  The two files declare the optional parameters of
    [resolveNameAccountKeyByName] in opposite orders, and each
    [resolve_UTF8_ONS] passes the chained key in the position of the parent:
    the two [resolve_UTF8_ONS] are equal on every path and [unknownParent]. *)
Theorem resolve_UTF8_ONS_variants_equal
  (P : Platform) (path : list jsstring) (unknownParent : option PublicKey) :
  Index.resolve_UTF8_ONS P path unknownParent =
    Part000.resolve_UTF8_ONS P path unknownParent /\
  (forall label first second,
     Index.resolveNameAccountKeyByName P label first second =
     Part000.resolveNameAccountKeyByName P label second first) /\
  (forall label parent,
     Index.resolveNameAccountKeyByName P label parent None =
       Index.resolveNameAccountKey P (Index.getHashedName label) None parent /\
     Part000.resolveNameAccountKeyByName P label None parent =
       Index.resolveNameAccountKey P (Index.getHashedName label) None parent).
Proof.
  split; [symmetry; apply resolve_UTF8_ONS_same |].
  split; [intros; apply byName_swapped |].
  intros label parent. split; reflexivity.
Qed.

(** C5.  For a parent, an owner and a class of 32 bytes each and a payload
    of any length, the decoder of either file accepts an account whose data
    is their concatenation, and the fields of the record it returns hold
    bytes [0,32), [32,64), [64,96) and [96,end) of the data, which are the
    parent, the owner, the class and the payload. *)
Theorem parseNameAccountInfo_round_trip
  (acc : Web3.AccountInfo (option Buffer)) (parent owner class payload : Buffer) :
  List.length parent = 32%nat -> List.length owner = 32%nat -> List.length class = 32%nat ->
  Web3.data acc = Some (parent ++ owner ++ class ++ payload) ->
  (exists r,
     Index.parseNameAccountInfo (Some acc) = Ok r /\
     toBuffer (Index.parentName r) = slice (parent ++ owner ++ class ++ payload) 0 32 /\
     toBuffer (Index.owner r) = slice (parent ++ owner ++ class ++ payload) 32 64 /\
     toBuffer (Index.class r) = slice (parent ++ owner ++ class ++ payload) 64 96 /\
     Index.data r = slice_from (parent ++ owner ++ class ++ payload) 96 /\
     toBuffer (Index.parentName r) = parent /\
     toBuffer (Index.owner r) = owner /\
     toBuffer (Index.class r) = class /\
     Index.data r = payload) /\
  (forall nameKey, exists r,
     Part000.parseNameAccountInfo nameKey (Some acc) = Ok r /\
     Part000.name (Web3.data r) = nameKey /\
     toBuffer (Part000.parentName (Web3.data r)) = parent /\
     toBuffer (Part000.owner (Web3.data r)) = owner /\
     toBuffer (Part000.class (Web3.data r)) = class /\
     Part000.extra (Web3.data r) = payload).
Proof.
  intros Hp Ho Hc Hd.
  destruct (slices_of_record parent owner class payload Hp Ho Hc) as (Sp & So & Sc & Se).
  assert (Hlen : (96 <= List.length (parent ++ owner ++ class ++ payload))%nat).
  { rewrite !length_app. lia. }
  destruct (PublicKey_new_32 parent Hp) as [_ Bp].
  destruct (PublicKey_new_32 owner Ho) as [_ Bo].
  destruct (PublicKey_new_32 class Hc) as [_ Bc].
  split.
  - eexists. split; [apply (Index_parse_header acc Hd Hlen) |].
    cbn [Index.parentName Index.owner Index.class Index.data].
    rewrite Sp, So, Sc, Se, Bp, Bo, Bc. repeat split; reflexivity.
  - intro nameKey. eexists.
    split; [apply (Part000_parse_header nameKey acc Hd Hlen) |].
    cbn [Web3.data Part000.name Part000.parentName Part000.owner Part000.class
         Part000.extra].
    rewrite Sp, So, Sc, Se, Bp, Bo, Bc. repeat split; reflexivity.
Qed.

Lemma parseNameAccountInfo_round_trip_witness :
  exists r,
    Index.parseNameAccountInfo
      (Some (Web3.mkAccountInfo false Index.NAME_PROGRAM_ID 5%Z
               (Some (repeat x01 32 ++ repeat x02 32 ++ repeat x03 32 ++ [x04; x05]))
               (Some 7%Z))) = Ok r /\
    toBuffer (Index.parentName r) = repeat x01 32 /\
    toBuffer (Index.owner r) = repeat x02 32 /\
    toBuffer (Index.class r) = repeat x03 32 /\
    Index.data r = [x04; x05].
Proof.
  destruct (parseNameAccountInfo_round_trip
              (Web3.mkAccountInfo false Index.NAME_PROGRAM_ID 5%Z
                 (Some (repeat x01 32 ++ repeat x02 32 ++ repeat x03 32 ++ [x04; x05]))
                 (Some 7%Z))
              (repeat x01 32) (repeat x02 32) (repeat x03 32) [x04; x05]
              eq_refl eq_refl eq_refl eq_refl)
    as [(r & Hr & _ & _ & _ & _ & Hp & Ho & Hc & Hd) _].
  exists r. repeat split; assumption.
Defined.

(** C6.  The decoder of either file throws its account-not-found error
    exactly when the account is absent, throws its invalid-data error when
    the data is present with fewer than 96 bytes, whatever the length, and
    returns a record only for an account whose data has at least 96 bytes. *)
Theorem parseNameAccountInfo_errors
  (nameKey : PublicKey) (nameAccount : option (Web3.AccountInfo (option Buffer))) :
  (Index.parseNameAccountInfo nameAccount = Throw "Unable to find the given account."
   <-> nameAccount = None) /\
  (Part000.parseNameAccountInfo nameKey nameAccount =
     Throw "Unable to find the given account."
   <-> nameAccount = None) /\
  (forall acc d,
     nameAccount = Some acc -> Web3.data acc = Some d -> (List.length d < 96)%nat ->
     Index.parseNameAccountInfo nameAccount = Throw "Invalid name account data" /\
     Part000.parseNameAccountInfo nameKey nameAccount = Throw "Invalid name account data") /\
  (forall r,
     Index.parseNameAccountInfo nameAccount = Ok r ->
     exists acc d,
       nameAccount = Some acc /\ Web3.data acc = Some d /\ (96 <= List.length d)%nat) /\
  (forall r,
     Part000.parseNameAccountInfo nameKey nameAccount = Ok r ->
     exists acc d,
       nameAccount = Some acc /\ Web3.data acc = Some d /\ (96 <= List.length d)%nat).
Proof.
  destruct nameAccount as [acc |].
  - assert (Hcases : (exists d, Web3.data acc = Some d /\ (96 <= List.length d)%nat) \/
                     (forall d, Web3.data acc = Some d -> (List.length d < 96)%nat)).
    { destruct (Web3.data acc) as [d |].
      - destruct (Nat.lt_ge_cases (List.length d) 96) as [Hlt | Hge].
        + right. intros d' H. injection H as <-. exact Hlt.
        + left. now exists d.
      - right. intros d H. discriminate H. }
    destruct Hcases as [(d & Hd & Hlen) | Hshort].
    + rewrite (Index_parse_header acc Hd Hlen), (Part000_parse_header nameKey acc Hd Hlen).
      split; [split; intro H; discriminate H |].
      split; [split; intro H; discriminate H |].
      split.
      { intros acc' d' Ha Hd' Hlt. injection Ha as <-.
        rewrite Hd in Hd'. injection Hd' as <-. lia. }
      split; intros r _; exists acc, d; auto.
    + rewrite (Index_parse_short acc Hshort), (Part000_parse_short nameKey acc Hshort).
      split; [split; intro H; discriminate H |].
      split; [split; intro H; discriminate H |].
      split; [intros; split; reflexivity |].
      split; intros r H; discriminate H.
  - cbn [Index.parseNameAccountInfo Part000.parseNameAccountInfo].
    split; [split; reflexivity |].
    split; [split; reflexivity |].
    split; [intros acc d H; discriminate H |].
    split; intros r H; discriminate H.
Qed.

Lemma parseNameAccountInfo_errors_witness :
  Index.parseNameAccountInfo
    (Some (Web3.mkAccountInfo false Index.NAME_PROGRAM_ID 5%Z (Some (repeat x01 95)) None))
  = Throw "Invalid name account data" /\
  (Index.parseNameAccountInfo None = Throw "Unable to find the given account."
   <-> @None (Web3.AccountInfo (option Buffer)) = None).
Proof.
  split.
  - destruct (parseNameAccountInfo_errors zero_key
                (Some (Web3.mkAccountInfo false Index.NAME_PROGRAM_ID 5%Z
                         (Some (repeat x01 95)) None)))
      as (_ & _ & Hshort & _).
    apply (Hshort _ (repeat x01 95) eq_refl eq_refl). simpl. lia.
  - apply (parseNameAccountInfo_errors zero_key None).
Defined.

(** C9, as the claim has it, fails for [src/index.ts]: the [owner] of its
    result is the owner written in the record, not the program that owns
    the account. *)
Lemma parseNameAccountInfo_owner_not_passed :
  exists r,
    Index.parseNameAccountInfo (Some sample_account) = Ok r /\
    Web3.owner sample_account = Index.NAME_PROGRAM_ID /\
    Index.owner r = zero_key /\
    Index.owner r <> Web3.owner sample_account.
Proof.
  eexists. split; [vm_compute; reflexivity |].
  split; [reflexivity |]. split; [reflexivity |].
  intro H. vm_compute in H. discriminate H.
Qed.

(** C9, amended.  For an account whose data has at least 96 bytes, the
    decoder of the later file returns the account with its executable flag,
    owning program, lamports and rent epoch unchanged; the decoder of
    [src/index.ts] returns a record with the lamports and the rent epoch of
    the account, whose [owner] is read from bytes [32,64) of the data. *)
Theorem parseNameAccountInfo_pass_through
  (nameKey : PublicKey) (acc : Web3.AccountInfo (option Buffer)) (d : Buffer) :
  Web3.data acc = Some d -> (96 <= List.length d)%nat ->
  (exists r,
     Part000.parseNameAccountInfo nameKey (Some acc) = Ok r /\
     Web3.executable r = Web3.executable acc /\
     Web3.owner r = Web3.owner acc /\
     Web3.lamports r = Web3.lamports acc /\
     Web3.rentEpoch r = Web3.rentEpoch acc) /\
  (exists r,
     Index.parseNameAccountInfo (Some acc) = Ok r /\
     Index.lamports r = Web3.lamports acc /\
     Index.rentEpoch r = Web3.rentEpoch acc /\
     toBuffer (Index.owner r) = slice d 32 64).
Proof.
  intros Hd Hlen. split.
  - eexists. split; [apply (Part000_parse_header nameKey acc Hd Hlen) |].
    repeat split; reflexivity.
  - eexists. split; [apply (Index_parse_header acc Hd Hlen) |].
    cbn [Index.lamports Index.rentEpoch Index.owner].
    repeat split; try reflexivity.
    apply PublicKey_new_32. rewrite slice_length; lia.
Qed.

Lemma parseNameAccountInfo_pass_through_witness :
  exists r,
    Part000.parseNameAccountInfo zero_key (Some sample_account) = Ok r /\
    Web3.executable r = true /\
    Web3.owner r = Index.NAME_PROGRAM_ID /\
    Web3.lamports r = 1%Z /\
    Web3.rentEpoch r = None.
Proof.
  assert (Hlen : (96 <= List.length (repeat x00 96))%nat) by (simpl; lia).
  destruct (parseNameAccountInfo_pass_through zero_key sample_account eq_refl Hlen)
    as [(r & Hr & He & Ho & Hl & Hre) _].
  exists r. repeat split; assumption.
Defined.

(** C10.  [resolve_STD_ONS] never takes the empty-path exit: the labels it
    splits the trimmed, lower-cased domain into are at least one, the call
    is the loop of [resolve_UTF8_ONS] over them, and it is rejected only
    with the error of an address search.  On the empty domain, which
    lower-casing leaves empty, the one label is the empty string and the
    result is the address derived for it. *)
Theorem resolve_STD_ONS_never_empty_path
  (P : Platform) (domain : jsstring) (unknownParent : option PublicKey) :
  split 46%N (toLowerCase P (trim domain)) <> [] /\
  Index.resolve_STD_ONS P domain unknownParent =
    Index.resolve_loop P (split 46%N (toLowerCase P (trim domain)))
      (List.length (split 46%N (toLowerCase P (trim domain)))) unknownParent [] /\
  (forall e,
     Index.resolve_STD_ONS P domain unknownParent = Throw e ->
     exists label parent,
       findProgramAddress P
         [Index.getHashedName label; repeat x00 32; seed_or_zero parent]
         Index.NAME_PROGRAM_ID = Throw e) /\
  (toLowerCase P (js "") = js "" ->
   Index.resolve_STD_ONS P (js "") unknownParent =
     bind (Index.resolveNameAccountKey P (Index.getHashedName (js "")) None unknownParent)
          (fun k => Ok [k])).
Proof.
  pose proof (split_not_nil 46%N (toLowerCase P (trim domain))) as Hne.
  split; [exact Hne |]. split; [| split].
  - unfold Index.resolve_STD_ONS, Index.resolve_UTF8_ONS. cbn zeta.
    destruct (split 46%N (toLowerCase P (trim domain))); [contradiction | reflexivity].
  - intros e H. unfold Index.resolve_STD_ONS in H. cbn zeta in H.
    rewrite (resolve_UTF8_ONS_is_chain P unknownParent Hne) in H.
    apply chain_Throw in H as (label & parent & _ & Hd).
    exists label, parent. now apply derive_Throw.
  - intro Hlower. unfold Index.resolve_STD_ONS. cbn zeta.
    change (trim (js "")) with (js ""). rewrite Hlower.
    cbn [js list_ascii_of_string map split].
    unfold Index.resolve_UTF8_ONS.
    cbn [List.length Nat.eqb Index.resolve_loop nth].
    unfold Index.resolveNameAccountKeyByName.
    apply bind_ext; intro k. reflexivity.
Qed.

Lemma resolve_STD_ONS_never_empty_path_witness :
  toLowerCase Demo.platform (js "") = js "" /\
  exists k, Index.resolve_STD_ONS Demo.platform (js "") None = Ok [k].
Proof.
  assert (Hlower : toLowerCase Demo.platform (js "") = js "") by reflexivity.
  split; [exact Hlower |].
  destruct (resolve_STD_ONS_never_empty_path Demo.platform (js "") None)
    as (_ & _ & _ & Hempty).
  rewrite (Hempty Hlower). vm_compute. eexists. reflexivity.
Defined.

(** * Further properties of the decoder and the queries *)

Lemma account_cases (acc : Web3.AccountInfo (option Buffer)) :
  (exists d, Web3.data acc = Some d /\ (96 <= List.length d)%nat) \/
  (forall d, Web3.data acc = Some d -> (List.length d < 96)%nat).
Proof.
  destruct (Web3.data acc) as [d |].
  - destruct (Nat.lt_ge_cases (List.length d) 96) as [Hlt | Hge].
    + right. intros d' H. injection H as <-. exact Hlt.
    + left. now exists d.
  - right. intros d H. discriminate H.
Qed.

Lemma slices_reassemble (d : Buffer) :
  (96 <= List.length d)%nat ->
  slice d 0 32 ++ slice d 32 64 ++ slice d 64 96 ++ slice_from d 96 = d.
Proof.
  intros _. unfold slice, slice_from.
  change (32 - 0)%nat with 32%nat. change (64 - 32)%nat with 32%nat.
  change (96 - 64)%nat with 32%nat. change (skipn 0 d) with d.
  replace (skipn 96 d) with (skipn 32 (skipn 64 d)) by apply (skipn_skipn 32 64).
  rewrite firstn_skipn.
  replace (skipn 64 d) with (skipn 32 (skipn 32 d)) by apply (skipn_skipn 32 32).
  rewrite firstn_skipn. apply firstn_skipn.
Qed.

Lemma toBuffer_slice (d : Buffer) (start : nat) :
  (start + 32 <= List.length d)%nat ->
  toBuffer (mkPublicKey (BN_of_bytes (slice d start (start + 32)))) =
  slice d start (start + 32).
Proof.
  intro H. apply PublicKey_new_32. rewrite slice_length; lia.
Qed.

Lemma Index_parse_Ok_inv
  (nameAccount : option (Web3.AccountInfo (option Buffer))) (r : Index.NameAccount) :
  Index.parseNameAccountInfo nameAccount = Ok r ->
  exists acc d,
    nameAccount = Some acc /\ Web3.data acc = Some d /\ (96 <= List.length d)%nat /\
    r = Index.mkNameAccount
          (mkPublicKey (BN_of_bytes (slice d 0 32)))
          (mkPublicKey (BN_of_bytes (slice d 32 64)))
          (mkPublicKey (BN_of_bytes (slice d 64 96)))
          (slice_from d 96)
          (Web3.lamports acc) (Web3.rentEpoch acc).
Proof.
  destruct nameAccount as [acc |]; [| intro H; discriminate H].
  destruct (account_cases acc) as [(d & Hd & Hlen) | Hshort].
  - rewrite (Index_parse_header acc Hd Hlen). intro H. injection H as <-.
    exists acc, d. auto.
  - rewrite (Index_parse_short acc Hshort). intro H. discriminate H.
Qed.

Lemma Part000_parse_Ok_inv (nameKey : PublicKey)
  (nameAccount : option (Web3.AccountInfo (option Buffer))) (r : Part000.NameInfo) :
  Part000.parseNameAccountInfo nameKey nameAccount = Ok r ->
  exists acc d,
    nameAccount = Some acc /\ Web3.data acc = Some d /\ (96 <= List.length d)%nat /\
    r = Web3.mkAccountInfo (Web3.executable acc) (Web3.owner acc) (Web3.lamports acc)
          (Part000.mkNameData nameKey
             (mkPublicKey (BN_of_bytes (slice d 0 32)))
             (mkPublicKey (BN_of_bytes (slice d 32 64)))
             (mkPublicKey (BN_of_bytes (slice d 64 96)))
             (slice_from d 96))
          (Web3.rentEpoch acc).
Proof.
  destruct nameAccount as [acc |]; [| intro H; discriminate H].
  destruct (account_cases acc) as [(d & Hd & Hlen) | Hshort].
  - rewrite (Part000_parse_header nameKey acc Hd Hlen). intro H. injection H as <-.
    exists acc, d. auto.
  - rewrite (Part000_parse_short nameKey acc Hshort). intro H. discriminate H.
Qed.

(** The decoder of either file throws its invalid-data error for an account
    exactly when the account has no data or fewer than 96 bytes of it. *)
Theorem parseNameAccountInfo_invalid_data
  (nameKey : PublicKey) (acc : Web3.AccountInfo (option Buffer)) :
  (Index.parseNameAccountInfo (Some acc) = Throw "Invalid name account data" <->
   Web3.data acc = None \/
   exists d, Web3.data acc = Some d /\ (List.length d < 96)%nat) /\
  (Part000.parseNameAccountInfo nameKey (Some acc) = Throw "Invalid name account data" <->
   Web3.data acc = None \/
   exists d, Web3.data acc = Some d /\ (List.length d < 96)%nat).
Proof.
  destruct (account_cases acc) as [(d & Hd & Hlen) | Hshort].
  - rewrite (Index_parse_header acc Hd Hlen), (Part000_parse_header nameKey acc Hd Hlen).
    split; (split; [intro H; discriminate H |]);
      (intros [Hn | (d' & Hd' & Hlt)];
       [rewrite Hd in Hn; discriminate Hn
       | rewrite Hd in Hd'; injection Hd' as <-; lia]).
  - rewrite (Index_parse_short acc Hshort), (Part000_parse_short nameKey acc Hshort).
    assert (Hdata : Web3.data acc = None \/
                    exists d, Web3.data acc = Some d /\ (List.length d < 96)%nat).
    { destruct (Web3.data acc) as [d |] eqn:Hd; [right | now left].
      exists d. split; [reflexivity | now apply Hshort]. }
    split; (split; [intros _; exact Hdata | reflexivity]).
Qed.

Lemma parseNameAccountInfo_invalid_data_witness :
  Index.parseNameAccountInfo
    (Some (Web3.mkAccountInfo false Index.NAME_PROGRAM_ID 5%Z None None))
  = Throw "Invalid name account data".
Proof.
  apply (parseNameAccountInfo_invalid_data zero_key
           (Web3.mkAccountInfo false Index.NAME_PROGRAM_ID 5%Z None None)).
  left. reflexivity.
Defined.

(** The record the decoder returns for data of at least 96 bytes loses
    nothing: the bytes of its parent, owner and class followed by its
    payload are the data, and the payload is the data less 96 bytes. *)
Theorem parseNameAccountInfo_reassemble
  (nameKey : PublicKey) (acc : Web3.AccountInfo (option Buffer)) (d : Buffer) :
  Web3.data acc = Some d -> (96 <= List.length d)%nat ->
  (exists r,
     Index.parseNameAccountInfo (Some acc) = Ok r /\
     toBuffer (Index.parentName r) ++ toBuffer (Index.owner r) ++
       toBuffer (Index.class r) ++ Index.data r = d /\
     List.length (Index.data r) = (List.length d - 96)%nat) /\
  (exists r,
     Part000.parseNameAccountInfo nameKey (Some acc) = Ok r /\
     toBuffer (Part000.parentName (Web3.data r)) ++ toBuffer (Part000.owner (Web3.data r)) ++
       toBuffer (Part000.class (Web3.data r)) ++ Part000.extra (Web3.data r) = d /\
     List.length (Part000.extra (Web3.data r)) = (List.length d - 96)%nat).
Proof.
  intros Hd Hlen.
  pose proof (toBuffer_slice d 0) as B0.
  pose proof (toBuffer_slice d 32) as B1.
  pose proof (toBuffer_slice d 64) as B2.
  cbn [Nat.add] in B0, B1, B2.
  split.
  - eexists. split; [apply (Index_parse_header acc Hd Hlen) |].
    cbn [Index.parentName Index.owner Index.class Index.data].
    rewrite B0, B1, B2 by lia.
    split; [now apply slices_reassemble |].
    unfold slice_from. apply length_skipn.
  - eexists. split; [apply (Part000_parse_header nameKey acc Hd Hlen) |].
    cbn [Web3.data Part000.parentName Part000.owner Part000.class Part000.extra].
    rewrite B0, B1, B2 by lia.
    split; [now apply slices_reassemble |].
    unfold slice_from. apply length_skipn.
Qed.

Lemma parseNameAccountInfo_reassemble_witness :
  exists r,
    Index.parseNameAccountInfo (Some sample_account) = Ok r /\
    toBuffer (Index.parentName r) ++ toBuffer (Index.owner r) ++
      toBuffer (Index.class r) ++ Index.data r = repeat x00 96.
Proof.
  assert (Hlen : (96 <= List.length (repeat x00 96))%nat) by (simpl; lia).
  destruct (parseNameAccountInfo_reassemble zero_key sample_account eq_refl Hlen)
    as [(r & Hr & Hcat & _) _].
  exists r. split; assumption.
Defined.

(** The decoders of the two files accept the same accounts, throw the same
    errors, and decode the same parent, owner, class and payload; the later
    one adds the key it was given as [name]. *)
Theorem parseNameAccountInfo_variants_agree
  (nameKey : PublicKey) (nameAccount : option (Web3.AccountInfo (option Buffer))) :
  (forall e,
     Index.parseNameAccountInfo nameAccount = Throw e <->
     Part000.parseNameAccountInfo nameKey nameAccount = Throw e) /\
  (forall r,
     Index.parseNameAccountInfo nameAccount = Ok r ->
     exists r',
       Part000.parseNameAccountInfo nameKey nameAccount = Ok r' /\
       Part000.name (Web3.data r') = nameKey /\
       Part000.parentName (Web3.data r') = Index.parentName r /\
       Part000.owner (Web3.data r') = Index.owner r /\
       Part000.class (Web3.data r') = Index.class r /\
       Part000.extra (Web3.data r') = Index.data r /\
       Web3.lamports r' = Index.lamports r /\
       Web3.rentEpoch r' = Index.rentEpoch r) /\
  (forall r',
     Part000.parseNameAccountInfo nameKey nameAccount = Ok r' ->
     exists r, Index.parseNameAccountInfo nameAccount = Ok r).
Proof.
  destruct nameAccount as [acc |].
  - destruct (account_cases acc) as [(d & Hd & Hlen) | Hshort].
    + rewrite (Index_parse_header acc Hd Hlen), (Part000_parse_header nameKey acc Hd Hlen).
      split; [intro e; split; intro H; discriminate H |].
      split.
      * intros r H. injection H as <-. eexists. split; [reflexivity |].
        repeat split; reflexivity.
      * intros r' _. eexists. reflexivity.
    + rewrite (Index_parse_short acc Hshort), (Part000_parse_short nameKey acc Hshort).
      split; [intro e; split; intro H; injection H as <-; reflexivity |].
      split; intros r H; discriminate H.
  - cbn [Index.parseNameAccountInfo Part000.parseNameAccountInfo].
    split; [intro e; split; intro H; injection H as <-; reflexivity |].
    split; intros r H; discriminate H.
Qed.

Lemma parseNameAccountInfo_variants_agree_witness :
  exists r r',
    Index.parseNameAccountInfo (Some sample_account) = Ok r /\
    Part000.parseNameAccountInfo zero_key (Some sample_account) = Ok r' /\
    Part000.extra (Web3.data r') = Index.data r.
Proof.
  destruct (parseNameAccountInfo_variants_agree zero_key (Some sample_account))
    as (_ & Hok & _).
  eexists.
  assert (Hr : Index.parseNameAccountInfo (Some sample_account) = Ok _)
    by (vm_compute; reflexivity).
  destruct (Hok _ Hr) as (r' & Hr' & _ & _ & _ & _ & He & _).
  exists r'. split; [exact Hr |]. split; [exact Hr' | exact He].
Defined.

(** [queryNameInfo] of [src/index.ts] is rejected with the error of the
    fetch when the fetch is rejected and with the account-not-found error
    when the fetch finds no account; a record it returns is the decoding of
    a fetched account with at least 96 bytes of data, with the lamports and
    the rent epoch of that account. *)
Theorem queryNameInfo_outcomes
  (connection : Connection) (nameKey : PublicKey) (commitment : option Commitment) :
  (forall e,
     getAccountInfo connection nameKey commitment = Throw e ->
     Index.queryNameInfo connection nameKey commitment = Throw e) /\
  (getAccountInfo connection nameKey commitment = Ok None ->
   Index.queryNameInfo connection nameKey commitment =
     Throw "Unable to find the given account.") /\
  (forall r,
     Index.queryNameInfo connection nameKey commitment = Ok r ->
     exists acc d,
       getAccountInfo connection nameKey commitment = Ok (Some acc) /\
       Web3.data acc = Some d /\ (96 <= List.length d)%nat /\
       toBuffer (Index.parentName r) = slice d 0 32 /\
       toBuffer (Index.owner r) = slice d 32 64 /\
       toBuffer (Index.class r) = slice d 64 96 /\
       Index.data r = slice_from d 96 /\
       Index.lamports r = Web3.lamports acc /\
       Index.rentEpoch r = Web3.rentEpoch acc).
Proof.
  unfold Index.queryNameInfo.
  split; [intros e ->; reflexivity |].
  split; [intros ->; reflexivity |].
  intros r H.
  apply bind_Ok_inv in H as (accountInfo & Hfetch & Hparse).
  apply Index_parse_Ok_inv in Hparse as (acc & d & -> & Hd & Hlen & ->).
  exists acc, d.
  cbn [Index.parentName Index.owner Index.class Index.data Index.lamports Index.rentEpoch].
  pose proof (toBuffer_slice d 0) as B0.
  pose proof (toBuffer_slice d 32) as B1.
  pose proof (toBuffer_slice d 64) as B2.
  cbn [Nat.add] in B0, B1, B2.
  rewrite B0, B1, B2 by lia.
  repeat split; try reflexivity; assumption.
Qed.

Lemma queryNameInfo_outcomes_witness :
  Index.queryNameInfo sample_connection (mkPublicKey 1) None =
    Throw "Unable to find the given account." /\
  exists r acc,
    Index.queryNameInfo sample_connection zero_key None = Ok r /\
    getAccountInfo sample_connection zero_key None = Ok (Some acc) /\
    Index.lamports r = Web3.lamports acc.
Proof.
  split.
  - apply (queryNameInfo_outcomes sample_connection (mkPublicKey 1) None). reflexivity.
  - destruct (queryNameInfo_outcomes sample_connection zero_key None) as (_ & _ & Hok).
    eexists.
    assert (Hr : Index.queryNameInfo sample_connection zero_key None = Ok _)
      by (vm_compute; reflexivity).
    destruct (Hok _ Hr) as (acc & d & Hf & _ & _ & _ & _ & _ & _ & Hl & _).
    exists acc. split; [exact Hr |]. split; [exact Hf | exact Hl].
Defined.

(** [queryNameData] of the later file returns the [data] of what
    [queryNameInfo] returns and is rejected with the same errors; the [name]
    of the data is the key that was queried, the other fields are the
    decoding of the fetched account, and [queryNameInfo] hands on the
    executable flag, owner, lamports and rent epoch of that account. *)
Theorem queryNameData_of_queryNameInfo
  (connection : Connection) (nameKey : PublicKey) (commitment : option Commitment) :
  (forall e,
     Part000.queryNameData connection nameKey commitment = Throw e <->
     Part000.queryNameInfo connection nameKey commitment = Throw e) /\
  (forall info,
     Part000.queryNameInfo connection nameKey commitment = Ok info ->
     Part000.queryNameData connection nameKey commitment = Ok (Web3.data info) /\
     exists acc,
       getAccountInfo connection nameKey commitment = Ok (Some acc) /\
       Web3.executable info = Web3.executable acc /\
       Web3.owner info = Web3.owner acc /\
       Web3.lamports info = Web3.lamports acc /\
       Web3.rentEpoch info = Web3.rentEpoch acc) /\
  (forall nameData,
     Part000.queryNameData connection nameKey commitment = Ok nameData ->
     Part000.name nameData = nameKey /\
     exists acc d,
       getAccountInfo connection nameKey commitment = Ok (Some acc) /\
       Web3.data acc = Some d /\ (96 <= List.length d)%nat /\
       toBuffer (Part000.parentName nameData) = slice d 0 32 /\
       toBuffer (Part000.owner nameData) = slice d 32 64 /\
       toBuffer (Part000.class nameData) = slice d 64 96 /\
       Part000.extra nameData = slice_from d 96).
Proof.
  unfold Part000.queryNameData.
  split; [| split].
  - intro e. destruct (Part000.queryNameInfo connection nameKey commitment) as [info | msg];
      cbn [bind]; split; intro H; try discriminate H; injection H as <-; reflexivity.
  - intros info H. rewrite H. split; [reflexivity |].
    unfold Part000.queryNameInfo in H.
    apply bind_Ok_inv in H as (accountInfo & Hfetch & Hparse).
    apply Part000_parse_Ok_inv in Hparse as (acc & d & -> & Hd & Hlen & ->).
    exists acc. repeat split; try reflexivity; assumption.
  - intros nameData H.
    apply bind_Ok_inv in H as (info & Hinfo & H). injection H as <-.
    unfold Part000.queryNameInfo in Hinfo.
    apply bind_Ok_inv in Hinfo as (accountInfo & Hfetch & Hparse).
    apply Part000_parse_Ok_inv in Hparse as (acc & d & -> & Hd & Hlen & ->).
    cbn [Web3.data Part000.name Part000.parentName Part000.owner Part000.class
         Part000.extra].
    split; [reflexivity |]. exists acc, d.
    pose proof (toBuffer_slice d 0) as B0.
    pose proof (toBuffer_slice d 32) as B1.
    pose proof (toBuffer_slice d 64) as B2.
    cbn [Nat.add] in B0, B1, B2.
    rewrite B0, B1, B2 by lia.
    repeat split; try reflexivity; assumption.
Qed.

Lemma queryNameData_of_queryNameInfo_witness :
  exists nameData,
    Part000.queryNameData sample_connection zero_key None = Ok nameData /\
    Part000.name nameData = zero_key.
Proof.
  destruct (queryNameData_of_queryNameInfo sample_connection zero_key None)
    as (_ & _ & Hdata).
  eexists.
  assert (Hr : Part000.queryNameData sample_connection zero_key None = Ok _)
    by (vm_compute; reflexivity).
  split; [exact Hr |]. apply (Hdata _ Hr).
Defined.

(** * Further properties of the resolver *)

(** ** Trimming *)

Lemma trimStart_white (ws s : jsstring) :
  Forall (fun c => is_white_space c = true) ws -> trimStart (ws ++ s) = trimStart s.
Proof.
  induction 1 as [| c ws Hc _ IH]; [reflexivity |].
  cbn [app trimStart]. now rewrite Hc.
Qed.

Lemma trimStart_app (a b : jsstring) :
  trimStart (a ++ b) =
  match trimStart a with
  | [] => trimStart b
  | c :: t => (c :: t) ++ b
  end.
Proof.
  induction a as [| c a IH]; [simpl; now destruct (trimStart b) |].
  cbn [app trimStart].
  destruct (is_white_space c); [exact IH | reflexivity].
Qed.

Lemma trimEnd_white (s ws : jsstring) :
  Forall (fun c => is_white_space c = true) ws -> trimEnd (s ++ ws) = trimEnd s.
Proof.
  intro H. unfold trimEnd. rewrite rev_app_distr.
  rewrite trimStart_white; [reflexivity |].
  apply Forall_rev. exact H.
Qed.

Lemma trim_padded (before domain after : jsstring) :
  Forall (fun c => is_white_space c = true) before ->
  Forall (fun c => is_white_space c = true) after ->
  trim (before ++ domain ++ after) = trim domain.
Proof.
  intros Hb Ha. unfold trim.
  rewrite (trimStart_white (domain ++ after) Hb), trimStart_app.
  destruct (trimStart domain) as [| c t].
  - rewrite <- (app_nil_r after), (trimStart_white [] Ha). reflexivity.
  - now apply trimEnd_white.
Qed.

(** ** Splitting and joining *)

Lemma split_piece (sep : code_unit) (piece : jsstring) :
  ~ In sep piece -> split sep piece = [piece].
Proof.
  induction piece as [| c piece IH]; intro Hn; [reflexivity |].
  cbn [split].
  destruct (N.eqb_spec c sep) as [-> | _]; [exfalso; apply Hn; now left |].
  rewrite IH; [reflexivity |]. intro H. apply Hn. now right.
Qed.

Lemma split_piece_sep (sep : code_unit) (piece rest : jsstring) :
  ~ In sep piece -> split sep (piece ++ sep :: rest) = piece :: split sep rest.
Proof.
  induction piece as [| c piece IH]; intro Hn.
  - cbn [app split]. now rewrite N.eqb_refl.
  - cbn [app split].
    destruct (N.eqb_spec c sep) as [-> | _]; [exfalso; apply Hn; now left |].
    rewrite IH; [reflexivity |]. intro H. apply Hn. now right.
Qed.

Lemma split_join (sep : code_unit) (pieces : list jsstring) :
  pieces <> [] -> Forall (fun piece => ~ In sep piece) pieces ->
  split sep (join sep pieces) = pieces.
Proof.
  intros Hne Hall. induction Hall as [| piece rest Hp Hrest IH]; [contradiction |].
  destruct rest as [| piece' rest'].
  - cbn [join]. now apply split_piece.
  - change (join sep (piece :: piece' :: rest'))
      with (piece ++ sep :: join sep (piece' :: rest')).
    rewrite split_piece_sep by exact Hp. rewrite IH; [reflexivity | discriminate].
Qed.

Lemma split_pieces (sep : code_unit) (s : jsstring) :
  join sep (split sep s) = s /\
  Forall (fun piece => ~ In sep piece) (split sep s) /\
  List.length (split sep s) = S (occurrences sep s).
Proof.
  unfold occurrences.
  induction s as [| c s (Hjoin & Hfree & Hlen)].
  - split; [reflexivity |]. split; [| reflexivity].
    constructor; [intros [] | constructor].
  - cbn [split filter]. rewrite (N.eqb_sym sep c).
    destruct (N.eqb_spec c sep) as [-> | Hc].
    + split; [| split].
      * pose proof (split_not_nil sep s) as Hne.
        destruct (split sep s) as [| p ps]; [contradiction |].
        cbn [join app]. cbn [join] in Hjoin. now rewrite Hjoin.
      * constructor; [intros [] | exact Hfree].
      * cbn [List.length]. now rewrite Hlen.
    + pose proof (split_not_nil sep s) as Hne.
      destruct (split sep s) as [| p ps]; [contradiction |].
      split; [| split].
      * destruct ps as [| p' ps'].
        -- cbn [join] in *. now rewrite Hjoin.
        -- change (join sep ((c :: p) :: p' :: ps'))
             with (c :: (p ++ sep :: join sep (p' :: ps'))).
           change (join sep (p :: p' :: ps'))
             with (p ++ sep :: join sep (p' :: ps')) in Hjoin.
           now rewrite Hjoin.
      * inversion Hfree as [| ? ? Hp Hps]; subst.
        constructor; [| exact Hps].
        intros [Heq | Hin]; [now apply Hc | now apply Hp].
      * exact Hlen.
Qed.

Lemma toBuffer_length (k : PublicKey) : List.length (toBuffer k) = 32%nat.
Proof.
  unfold toBuffer, BN_to_bytes. rewrite length_rev.
  generalize (_bn k). generalize 32%nat.
  induction n as [| n IH]; intro x; [reflexivity |].
  cbn [le_bytes List.length]. now rewrite IH.
Qed.

(** ** The dotted form *)

(** White space around a domain does not change what [resolve_STD_ONS] of
    either file answers. *)
Theorem resolve_STD_ONS_ignores_padding
  (P : Platform) (before domain after : jsstring) (unknownParent : option PublicKey) :
  Forall (fun c => is_white_space c = true) before ->
  Forall (fun c => is_white_space c = true) after ->
  Index.resolve_STD_ONS P (before ++ domain ++ after) unknownParent =
    Index.resolve_STD_ONS P domain unknownParent /\
  Part000.resolve_STD_ONS P (before ++ domain ++ after) unknownParent =
    Part000.resolve_STD_ONS P domain unknownParent.
Proof.
  intros Hb Ha. unfold Index.resolve_STD_ONS, Part000.resolve_STD_ONS.
  cbn zeta. rewrite (trim_padded domain Hb Ha). split; reflexivity.
Qed.

Lemma resolve_STD_ONS_ignores_padding_witness :
  Index.resolve_STD_ONS Demo.platform (js "  " ++ js "a.b" ++ [9; 10]%N) None =
  Index.resolve_STD_ONS Demo.platform (js "a.b") None.
Proof.
  apply (resolve_STD_ONS_ignores_padding Demo.platform
           (before := js "  ") (js "a.b") (after := [9; 10]%N) None).
  - repeat constructor.
  - repeat constructor.
Defined.

(** [resolve_STD_ONS] resolves the labels between the dots of the trimmed,
    lower-cased domain: joined with dots the labels are that string, none
    contains a dot, there is one more of them than dots, and a result has
    one address for each.  The two files agree. *)
Theorem resolve_STD_ONS_labels
  (P : Platform) (domain : jsstring) (unknownParent : option PublicKey) :
  exists labels,
    Index.resolve_STD_ONS P domain unknownParent =
      Index.resolve_UTF8_ONS P labels unknownParent /\
    Part000.resolve_STD_ONS P domain unknownParent =
      Index.resolve_STD_ONS P domain unknownParent /\
    join 46%N labels = toLowerCase P (trim domain) /\
    Forall (fun label => ~ In 46%N label) labels /\
    List.length labels = S (occurrences 46%N (toLowerCase P (trim domain))) /\
    (forall keys,
       Index.resolve_STD_ONS P domain unknownParent = Ok keys ->
       List.length keys = S (occurrences 46%N (toLowerCase P (trim domain)))).
Proof.
  exists (split 46%N (toLowerCase P (trim domain))).
  destruct (split_pieces 46%N (toLowerCase P (trim domain))) as (Hjoin & Hfree & Hlen).
  split; [reflexivity |].
  split; [apply resolve_UTF8_ONS_same |].
  split; [exact Hjoin |]. split; [exact Hfree |]. split; [exact Hlen |].
  intros keys H. unfold Index.resolve_STD_ONS in H. cbn zeta in H.
  rewrite (resolve_UTF8_ONS_is_chain P unknownParent
             (split_not_nil 46%N (toLowerCase P (trim domain)))) in H.
  apply chain_length in H. now rewrite H.
Qed.

Lemma resolve_STD_ONS_labels_witness :
  exists keys,
    Index.resolve_STD_ONS Demo.platform (js "A.b.c") None = Ok keys /\
    List.length keys = 3%nat.
Proof.
  destruct (resolve_STD_ONS_labels Demo.platform (js "A.b.c") None)
    as (labels & _ & _ & _ & _ & _ & Hkeys).
  eexists.
  assert (Hr : Index.resolve_STD_ONS Demo.platform (js "A.b.c") None = Ok _)
    by (vm_compute; reflexivity).
  split; [exact Hr |]. apply (Hkeys _ Hr).
Defined.

(** For a non-empty path of labels without a dot whose dotted form is left
    alone by trimming and lower-casing, [resolve_STD_ONS] of the dotted form
    is [resolve_UTF8_ONS] of the path. *)
Theorem resolve_STD_ONS_of_join
  (P : Platform) (path : list jsstring) (unknownParent : option PublicKey) :
  path <> [] ->
  Forall (fun label => ~ In 46%N label) path ->
  trim (join 46%N path) = join 46%N path ->
  toLowerCase P (join 46%N path) = join 46%N path ->
  Index.resolve_STD_ONS P (join 46%N path) unknownParent =
    Index.resolve_UTF8_ONS P path unknownParent /\
  Part000.resolve_STD_ONS P (join 46%N path) unknownParent =
    Part000.resolve_UTF8_ONS P path unknownParent.
Proof.
  intros Hne Hfree Htrim Hlower.
  unfold Index.resolve_STD_ONS, Part000.resolve_STD_ONS. cbn zeta.
  rewrite Htrim, Hlower, (split_join 46%N Hne Hfree). split; reflexivity.
Qed.

Lemma resolve_STD_ONS_of_join_witness :
  Index.resolve_STD_ONS Demo.platform (js "a.b.c") None =
  Index.resolve_UTF8_ONS Demo.platform [js "a"; js "b"; js "c"] None.
Proof.
  assert (Hne : [js "a"; js "b"; js "c"] <> []) by discriminate.
  assert (Hfree : Forall (fun label => ~ In 46%N label) [js "a"; js "b"; js "c"]).
  { repeat constructor; intros [H | []]; discriminate H. }
  apply (resolve_STD_ONS_of_join Demo.platform None Hne Hfree); reflexivity.
Defined.

(** ** Seeds *)

(** Whatever the label, the class and the parent, the address search is
    asked with exactly three seeds of 32 bytes each: the hash of the label,
    then the class, then the parent. *)
Theorem resolveNameAccountKeyByName_seeds
  (P : Platform) (label : jsstring) (parent klass : option PublicKey) :
  Index.resolveNameAccountKeyByName P label parent klass =
    bind (findProgramAddress P
            [Index.getHashedName label; seed_or_zero klass; seed_or_zero parent]
            Index.NAME_PROGRAM_ID)
         (fun found => Ok (fst found)) /\
  Part000.resolveNameAccountKeyByName P label klass parent =
    Index.resolveNameAccountKeyByName P label parent klass /\
  Forall (fun seed => List.length seed = 32%nat)
         [Index.getHashedName label; seed_or_zero klass; seed_or_zero parent].
Proof.
  split; [apply resolveNameAccountKey_seeds |].
  split; [reflexivity |].
  assert (Hseed : forall k, List.length (seed_or_zero k) = 32%nat).
  { intros [k |]; [apply toBuffer_length | reflexivity]. }
  constructor; [apply digest_length |].
  constructor; [apply Hseed |]. constructor; [apply Hseed | constructor].
Qed.

(** ** Labels that are not well-formed UTF-16 *)

Lemma utf8_high_last_bounded (n : nat) (s : jsstring) (c : code_unit) :
  (List.length s <= n)%nat -> is_high_surrogate c = true ->
  utf8 (s ++ [c]) = utf8 (s ++ [0xFFFD%N]).
Proof.
  intros Hlen Hc.
  assert (Hlow : is_low_surrogate c = false).
  { unfold is_high_surrogate in Hc. unfold is_low_surrogate.
    apply andb_prop in Hc as [_ Hc]. apply N.leb_le in Hc.
    destruct (N.leb_spec 0xDC00 c); [lia | reflexivity]. }
  revert s Hlen. induction n as [| n IH]; intros s Hlen.
  - destruct s; [| simpl in Hlen; lia].
    cbn [app utf8]. rewrite Hc. vm_compute. reflexivity.
  - destruct s as [| x rest]; [cbn [app utf8]; rewrite Hc; vm_compute; reflexivity |].
    cbn [List.length] in Hlen.
    cbn [app utf8].
    destruct (is_high_surrogate x).
    + destruct rest as [| d rest'].
      * cbn [app]. rewrite Hlow. change (is_low_surrogate 0xFFFD%N) with false.
        cbn iota. f_equal. apply (IH []). simpl; lia.
      * cbn [app]. cbn [List.length] in Hlen.
        destruct (is_low_surrogate d).
        -- f_equal. apply IH. lia.
        -- f_equal. apply (IH (d :: rest')). simpl; lia.
    + destruct (is_low_surrogate x); f_equal; apply IH; lia.
Qed.

(** The hash does not tell a surrogate on its own from U+FFFD: a label that
    starts with a low surrogate, or ends with a high one, has the hash of
    the label with U+FFFD in its place. *)
Theorem getHashedName_lone_surrogate (s : jsstring) (c : code_unit) :
  (is_low_surrogate c = true ->
   Index.getHashedName (c :: s) = Index.getHashedName (0xFFFD%N :: s)) /\
  (is_high_surrogate c = true ->
   Index.getHashedName (s ++ [c]) = Index.getHashedName (s ++ [0xFFFD%N])).
Proof.
  split; intro Hc; rewrite !getHashedName_prefix.
  - assert (Hhigh : is_high_surrogate c = false).
    { unfold is_low_surrogate in Hc. unfold is_high_surrogate.
      apply andb_prop in Hc as [Hc _]. apply N.leb_le in Hc.
      destruct (N.leb_spec c 0xDBFF); [lia | apply andb_false_r]. }
    replace (utf8 (c :: s)) with (utf8 (0xFFFD%N :: s)); [reflexivity |].
    cbn [utf8]. rewrite Hhigh, Hc. reflexivity.
  - rewrite (utf8_high_last_bounded s c (le_n (List.length s)) Hc). reflexivity.
Qed.

Lemma getHashedName_lone_surrogate_witness :
  [0xDC00%N; 97%N] <> [0xFFFD%N; 97%N] /\
  Index.getHashedName [0xDC00%N; 97%N] = Index.getHashedName [0xFFFD%N; 97%N].
Proof.
  split; [discriminate |].
  destruct (getHashedName_lone_surrogate [97%N] 0xDC00%N) as [Hlow _].
  exact (Hlow eq_refl).
Defined.

(** ** The zero key as parent *)

Lemma chain_zero_parent (P : Platform) (path : list jsstring) :
  chain (Index_derive P) path (Some zero_key) = chain (Index_derive P) path None.
Proof.
  induction path as [| label rest IH]; [reflexivity |].
  cbn [chain]. rewrite IH. apply bind_ext; intro later.
  destruct later; reflexivity.
Qed.

(** Giving the zero key as [unknownParent] is giving none: the resolvers of
    both files answer the same, for a path and for a dotted domain. *)
Theorem resolve_zero_unknownParent
  (P : Platform) (path : list jsstring) (domain : jsstring) :
  Index.resolve_UTF8_ONS P path (Some zero_key) = Index.resolve_UTF8_ONS P path None /\
  Part000.resolve_UTF8_ONS P path (Some zero_key) = Part000.resolve_UTF8_ONS P path None /\
  Index.resolve_STD_ONS P domain (Some zero_key) = Index.resolve_STD_ONS P domain None /\
  Part000.resolve_STD_ONS P domain (Some zero_key) = Part000.resolve_STD_ONS P domain None.
Proof.
  assert (H : forall p,
            Index.resolve_UTF8_ONS P p (Some zero_key) = Index.resolve_UTF8_ONS P p None).
  { intro p. destruct p as [| l rest]; [reflexivity |].
    assert (Hne : l :: rest <> []) by discriminate.
    rewrite !(resolve_UTF8_ONS_is_chain P _ Hne). apply chain_zero_parent. }
  split; [apply H |].
  split; [rewrite !resolve_UTF8_ONS_same; apply H |].
  split; [apply H |].
  unfold Part000.resolve_STD_ONS. cbn zeta. rewrite !resolve_UTF8_ONS_same. apply H.
Qed.

(** ** Errors of the queries of the later file *)

(** [queryNameInfo] and [queryNameData] of the later file are rejected with
    the error of the fetch when the fetch is rejected, with the
    account-not-found error when it finds no account, and with the
    invalid-data error when the account has fewer than 96 bytes of data. *)
Theorem queryNameData_rejections
  (connection : Connection) (nameKey : PublicKey) (commitment : option Commitment) :
  (forall e,
     getAccountInfo connection nameKey commitment = Throw e ->
     Part000.queryNameInfo connection nameKey commitment = Throw e /\
     Part000.queryNameData connection nameKey commitment = Throw e) /\
  (getAccountInfo connection nameKey commitment = Ok None ->
   Part000.queryNameInfo connection nameKey commitment =
     Throw "Unable to find the given account." /\
   Part000.queryNameData connection nameKey commitment =
     Throw "Unable to find the given account.") /\
  (forall acc d,
     getAccountInfo connection nameKey commitment = Ok (Some acc) ->
     Web3.data acc = Some d -> (List.length d < 96)%nat ->
     Part000.queryNameInfo connection nameKey commitment =
       Throw "Invalid name account data" /\
     Part000.queryNameData connection nameKey commitment =
       Throw "Invalid name account data").
Proof.
  unfold Part000.queryNameData, Part000.queryNameInfo.
  split; [intros e ->; split; reflexivity |].
  split; [intros ->; split; reflexivity |].
  intros acc d -> Hd Hlt. cbn [bind].
  assert (Hshort : forall d', Web3.data acc = Some d' -> (List.length d' < 96)%nat).
  { intros d' H. rewrite Hd in H. injection H as <-. exact Hlt. }
  rewrite (Part000_parse_short nameKey acc Hshort). split; reflexivity.
Qed.

Lemma queryNameData_rejections_witness :
  Part000.queryNameData sample_connection (mkPublicKey 1) None =
    Throw "Unable to find the given account.".
Proof.
  apply (queryNameData_rejections sample_connection (mkPublicKey 1) None). reflexivity.
Defined.
